(** * The computer-use agent loop of openai-computeruse-example

    A shallow embedding of [browser.go] and of the loop and dispatcher of
    [openai.go] (functions [BrowserUse], [computerCall], [dataURL],
    [Responses]), with the properties of the turn loop and of the action
    dispatcher proved about it.

    The program talks to three things outside itself: the browser driven
    through go-rod, the HTTP service, and the cancellable context.  They are
    modelled by a [World]: what each of them answers after a given history of
    effects.  Every effect of the program is appended to that history, so a
    run yields a result together with the trace of what was done.

    The calls of go-rod that return an error are answered by the [World].
    Its [Must...] helpers have no error result and panic when they fail; they
    are answered by a [Driver].  A statement that names no driver is about
    [reliable], the driver whose helpers return; the statements that name a
    driver [d] hold whatever its helpers do. *)

From Stdlib Require Import String Ascii List ZArith NArith Lia Bool.
From Stdlib Require Import Strings.Byte.
From Stdlib Require DecimalString.
From ExtLib Require Import Structures.Monad.
Import ListNotations.
Import MonadNotation.

Open Scope Z_scope.
Open Scope string_scope.
Open Scope monad_scope.

(** ** Library functions of Go used by the source *)

(** [strings.ToLower], byte by byte: the letters [A]..[Z] are folded.  Of
    the capital letters outside ASCII, which Go folds too, only U+0130 and
    U+212A fold to an ASCII letter ([i] and [k]); their UTF-8 encodings are
    folded here as well and every other byte is kept, so that a name
    lower-cases to a name made of ASCII letters here exactly when it does
    in Go. *)
Definition lower_ascii (c : ascii) : ascii :=
  let n := nat_of_ascii c in
  if (Nat.leb 65 n && Nat.leb n 90)%bool then ascii_of_nat (n + 32) else c.

Fixpoint ToLower (s : string) : string :=
  match s with
  | EmptyString => EmptyString
  | String "196" (String "176" rest) => String "i" (ToLower rest)
  | String "226" (String "132" (String "170" rest)) => String "k" (ToLower rest)
  | String c rest => String (lower_ascii c) (ToLower rest)
  end.

(** [base64.StdEncoding.EncodeToString]: three bytes give four characters of
    the standard alphabet, the last group is padded with [=]. *)
Definition base64_alphabet : string :=
  "ABCDEFGHIJKLMNOPQRSTUVWXYZabcdefghijklmnopqrstuvwxyz0123456789+/".

Definition base64_char (n : N) : ascii :=
  match String.get (N.to_nat n) base64_alphabet with
  | Some c => c
  | None => "="%char
  end.

Fixpoint EncodeToString (data : list byte) : string :=
  match data with
  | [] => ""
  | [a] =>
      let a := Byte.to_N a in
      String (base64_char (N.shiftr a 2))
        (String (base64_char (N.shiftl (N.land a 3) 4)) "==")
  | [a; b] =>
      let a := Byte.to_N a in
      let b := Byte.to_N b in
      String (base64_char (N.shiftr a 2))
        (String (base64_char (N.lor (N.shiftl (N.land a 3) 4) (N.shiftr b 4)))
           (String (base64_char (N.shiftl (N.land b 15) 2)) "="))
  | a :: b :: c :: rest =>
      let a := Byte.to_N a in
      let b := Byte.to_N b in
      let c := Byte.to_N c in
      String (base64_char (N.shiftr a 2))
        (String (base64_char (N.lor (N.shiftl (N.land a 3) 4) (N.shiftr b 4)))
           (String (base64_char (N.lor (N.shiftl (N.land b 15) 2) (N.shiftr c 6)))
              (String (base64_char (N.land c 63)) (EncodeToString rest))))
  end.

(** [dataURL] of openai.go. *)
Definition dataURL (data : list byte) : string :=
  "data:image/png;base64," ++ EncodeToString data.

(** A Go [error], identified with the text of its [Error()] method;
    [fmt.Errorf("prefix: %w", err)] is concatenation. *)
Definition error := string.

(** ** Data contracts of openai.go *)

Record ComputerOutput := {
  ComputerOutput_Type : string;
  ComputerOutput_ImageURL : string;
  ComputerOutput_CurrentURL : string
}.

Record SafetyCheck := {
  SafetyCheck_ID : string;
  SafetyCheck_Code : string;
  SafetyCheck_Message : string
}.

(** [Input.Output] is a [*ComputerOutput]: [None] is the nil pointer. *)
Record Input := {
  Input_Type : string;
  Input_CallID : string;
  Input_Output : option ComputerOutput;
  Input_Role : string;
  Input_Content : string;
  Input_AcknowledgedSafetyChecks : list SafetyCheck
}.

Record Tool := {
  Tool_Type : string;
  Tool_DisplayWidth : Z;
  Tool_DisplayHeight : Z;
  Tool_Environment : string
}.

(** The fields of [Request] that [Responses] sets; the others keep their
    zero value and are omitted from the JSON body. *)
Record Request := {
  Request_Model : string;
  Request_Input : list Input;
  Request_Tools : list Tool;
  Request_Truncation : string;
  Request_PreviousResponseID : string
}.

Record Action := {
  Action_Type : string;
  Action_Keys : list string;
  Action_Button : string;
  Action_Text : string;
  Action_X : Z;
  Action_Y : Z;
  Action_ScrollX : Z;
  Action_ScrollY : Z
}.

(** The keys of rod's [input] package that [Keypress] presses. *)
Inductive Key :=
| Enter | Delete | Tab | Escape
| ArrowLeft | ArrowRight | ArrowUp | ArrowDown
| PageUp | PageDown.

(** A value of Go's dynamic type [any], as [encoding/json] decodes it.  The
    program does nothing with such a value but print it, so it is
    represented by the text [fmt.Sprint] gives for it: a JSON string prints
    as itself (the empty string included), a JSON object as
    [map[text:hello type:output_text]], and so on. *)
Record any := { Sprint : string }.

(** [Action] is a [*Action] and [Content] a slice: [None] is nil, and
    [Some []] is the empty slice that a JSON [[]] decodes to. *)
Record OutputItem := {
  OutputItem_Type : string;
  OutputItem_ID : string;
  OutputItem_CallID : string;
  OutputItem_Status : string;
  OutputItem_Action : option Action;
  OutputItem_Role : string;
  OutputItem_Content : option (list any);
  OutputItem_PendingSafetyChecks : list SafetyCheck
}.

(** The fields of [Response] that the loop reads. *)
Record Response := {
  Response_ID : string;
  Response_Status : string;
  Response_Output : list OutputItem
}.

(** ** Effects *)

(** One entry per call that leaves the program: the calls on rod's browser,
    page, mouse and keyboard, the HTTP exchange, sleeping, and what is
    written to standard output.  The three [debug...] functions of openai.go
    only print (and save the screenshot to disk); each is one entry. *)
Inductive Event :=
| EvMustConnect
| EvMustClose
| EvPage (url : string)
| EvMustSetViewport (width height : Z)
| EvMustWaitStable
| EvScreenshot
| EvMustInfo
| EvPress (k : Key)
| EvInsertText (text : string)
| EvMustMoveTo (x y : Z)
| EvMustDown (button : string)
| EvMustUp (button : string)
| EvMustClick (button : string)
| EvMustScroll (dx dy : Z)
| EvSleep (milliseconds : Z)
| EvPrintln (line : string)
| EvPrintf (text : string)
| EvPost (req : Request)
| EvDebugInput (input : list Input)
| EvDebugResponse (response : Response)
| EvDebugComputerOutput (out : ComputerOutput).

Definition Trace := list Event.

(** What is outside the program, as a function of the history so far:
    - the environment variable read by [Responses];
    - whether the channel [ctx.Done()] is closed;
    - whether [rod.Browser.Page] fails when the page is created;
    - what [rod.Page.Screenshot] returns;
    - the URL that [rod.Page.MustInfo] reports;
    - the outcome of the HTTP exchange of [Responses], from marshalling the
      request to decoding the body: an error or the decoded response.
    The errors that the source discards (of [Keyboard.Press] and
    [Page.InsertText]) leave no entry; the panics of rod's [Must...] helpers
    are those of the [Driver] below. *)
Record World := {
  OPENAI_API_KEY : string;
  ctx_Done : Trace -> bool;
  rod_Page : Trace -> option error;
  rod_Screenshot : Trace -> error + list byte;
  rod_Info_URL : Trace -> string;
  http_Do : Trace -> error + Response
}.

(** The outcome of a Go call: a value, a non-nil [error], or a panic. *)
Inductive Res (A : Type) :=
| Ok (a : A)
| Err (e : error)
| Panic (msg : string).
Arguments Ok {A} a.
Arguments Err {A} e.
Arguments Panic {A} msg.

(** A computation extends the trace and ends in an outcome. *)
Definition M (A : Type) : Type := Trace -> Res A * Trace.

Definition M_ret {A} (a : A) : M A := fun tr => (Ok a, tr).

Definition M_bind {A B} (m : M A) (k : A -> M B) : M B :=
  fun tr =>
    match m tr with
    | (Ok a, tr') => k a tr'
    | (Err e, tr') => (Err e, tr')
    | (Panic msg, tr') => (Panic msg, tr')
    end.

#[global] Instance Monad_M : Monad M :=
  {| ret := @M_ret; bind := @M_bind |}.

Definition emit (e : Event) : M unit := fun tr => (Ok tt, (tr ++ [e])%list).
Definition fail {A} (e : error) : M A := fun tr => (Err e, tr).
Definition panic {A} (msg : string) : M A := fun tr => (Panic msg, tr).
Definition history : M Trace := fun tr => (Ok tr, tr).

(** [if err != nil { return fmt.Errorf(prefix + "%w", err) }] around a call. *)
Definition wrap {A} (prefix : string) (m : M A) : M A :=
  fun tr =>
    match m tr with
    | (Err e, tr') => (Err (prefix ++ e), tr')
    | other => other
    end.

(** [defer cleanup] followed by [body]: the deferred call runs when [body]
    returns, fails or panics, and the outcome of [body] stands. *)
Definition defer {A} (cleanup : M unit) (body : M A) : M A :=
  fun tr =>
    let (r, tr') := body tr in
    match cleanup tr' with
    | (Panic msg, tr'') => (Panic msg, tr'')
    | (_, tr'') => (r, tr'')
    end.

(** rod's [Must...] helpers have no error result: [MustX] calls [X] and
    panics with its error when it fails.  Whether a call fails is not the
    program's to decide, so it is answered from outside like the [World]:
    after the history up to and including the call, [rod_Must] tells whether
    the call panics, and with what value. *)
Class Driver := { rod_Must : Trace -> option string }.

(** One call of a [Must...] helper. *)
Definition must {d : Driver} (e : Event) : M unit :=
  emit e ;;
  tr <- history ;;
  match rod_Must tr with
  | Some msg => panic msg
  | None => ret tt
  end.

Definition nil_dereference : string :=
  "runtime error: invalid memory address or nil pointer dereference".

Definition index_out_of_range : string :=
  "runtime error: index out of range [0] with length 0".

(** ** browser.go *)

(** The [*rod.Page] of a [Browser] is nil until [Open] has succeeded; a page
    is identified by the URL it was created for. *)
Record Browser := {
  width : Z;
  height : Z;
  page : option string
}.

Definition the_page (b : Browser) : M string :=
  match page b with
  | Some p => ret p
  | None => panic nil_dereference
  end.

Definition NewBrowser {d : Driver} (width height : Z) : M Browser :=
  must EvMustConnect ;;
  ret {| width := width; height := height; page := None |}.

Definition Close {d : Driver} (b : Browser) : M unit := must EvMustClose.

(** [Open] returns the browser with its page set. *)
Definition Open {d : Driver} (w : World) (b : Browser) (url : string) : M Browser :=
  emit (EvPage url) ;;
  tr <- history ;;
  match rod_Page w tr with
  | Some err => fail ("error opening page: " ++ err)
  | None =>
      must (EvMustSetViewport (width b) (height b)) ;;
      must EvMustWaitStable ;;
      ret {| width := width b; height := height b; page := Some url |}
  end.

Definition Screenshot (w : World) (b : Browser) : M (list byte) :=
  the_page b ;;
  emit EvScreenshot ;;
  tr <- history ;;
  match rod_Screenshot w tr with
  | inl err => fail ("error taking screenshot: " ++ err)
  | inr screenshot => ret screenshot
  end.

Definition GetCurrentUrl {d : Driver} (w : World) (b : Browser) : M string :=
  the_page b ;;
  must EvMustInfo ;;
  tr <- history ;;
  ret (rod_Info_URL w tr).

(** The [switch] of [Keypress]: the key pressed for a lower-cased name. *)
Definition key_of (name : string) : option Key :=
  if name =? "enter" then Some Enter
  else if name =? "return" then Some Enter
  else if name =? "delete" then Some Delete
  else if name =? "tab" then Some Tab
  else if name =? "escape" then Some Escape
  else if name =? "left" then Some ArrowLeft
  else if name =? "right" then Some ArrowRight
  else if name =? "up" then Some ArrowUp
  else if name =? "down" then Some ArrowDown
  else if name =? "page_up" then Some PageUp
  else if name =? "page_down" then Some PageDown
  else None.

Definition press_key (key : string) : M unit :=
  match key_of (ToLower key) with
  | Some k => emit (EvPress k)
  | None => emit (EvPrintf ("key: " ++ key ++ " is not implemented"))
  end.

Fixpoint press_keys (keys : list string) : M unit :=
  match keys with
  | [] => ret tt
  | key :: rest => press_key key ;; press_keys rest
  end.

Definition Keypress {d : Driver} (b : Browser) (keys : list string) : M unit :=
  the_page b ;;
  press_keys keys ;;
  must EvMustWaitStable.

Definition Type_ (b : Browser) (text : string) : M unit :=
  the_page b ;;
  emit (EvInsertText text).

Definition Move {d : Driver} (b : Browser) (x y : Z) : M unit :=
  the_page b ;;
  must (EvMustMoveTo x y).

Definition Click {d : Driver} (b : Browser) (x y : Z) (button : string) : M unit :=
  the_page b ;;
  must (EvMustMoveTo x y) ;;
  (if button =? "right"
   then must (EvMustDown "right") ;; must (EvMustUp "right")
   else must (EvMustDown "left") ;; must (EvMustUp "left")) ;;
  must EvMustWaitStable.

Definition DoubleClick {d : Driver} (b : Browser) (x y : Z) : M unit :=
  the_page b ;;
  must (EvMustMoveTo x y) ;;
  must (EvMustClick "left") ;;
  must (EvMustClick "left") ;;
  must EvMustWaitStable.

Definition Scroll {d : Driver} (b : Browser) (x y scrollX scrollY : Z) : M unit :=
  the_page b ;;
  must (EvMustMoveTo x y) ;;
  must (EvMustScroll scrollX scrollY) ;;
  must EvMustWaitStable.

Definition Wait (ms : Z) : M unit := emit (EvSleep ms).

Definition Drag (b : Browser) (path : list (list (string * Z))) : M unit :=
  emit (EvPrintln "Drag not implemented").

(** ** openai.go *)

(** [Responses]: the request is posted with the fixed tool declaration and
    the outcome of the exchange is returned. *)
Definition Responses (w : World) (model responseID : string) (input : list Input)
  : M Response :=
  if OPENAI_API_KEY w =? "" then
    fail "OPENAI_API_KEY environment variable is not set"
  else
    let request :=
      {| Request_Model := model;
         Request_Input := input;
         Request_Tools :=
           [ {| Tool_Type := "computer-preview";
                Tool_DisplayWidth := 1024;
                Tool_DisplayHeight := 768;
                Tool_Environment := "browser" |} ];
         Request_Truncation := "auto";
         Request_PreviousResponseID := responseID |} in
    emit (EvPost request) ;;
    tr <- history ;;
    match http_Do w tr with
    | inl err => fail err
    | inr response => ret response
    end.

(** The [switch] of [computerCall]: the browser calls of one action. *)
Definition perform {d : Driver} (b : Browser) (action : Action) : M unit :=
  let kind := Action_Type action in
  if kind =? "screenshot" then ret tt
  else if kind =? "type" then Type_ b (Action_Text action)
  else if kind =? "click" then
    Click b (Action_X action) (Action_Y action) (Action_Button action)
  else if kind =? "scroll" then
    Scroll b (Action_X action) (Action_Y action)
      (Action_ScrollX action) (Action_ScrollY action)
  else if kind =? "keypress" then Keypress b (Action_Keys action)
  else if kind =? "wait" then emit (EvSleep 3000)
  else ret tt.

Definition computerCall {d : Driver} (w : World) (b : Browser) (action : Action)
  : M ComputerOutput :=
  perform b action ;;
  screenshot <- wrap "error taking screenshot: " (Screenshot w b) ;;
  url <- GetCurrentUrl w b ;;
  ret {| ComputerOutput_Type := "input_image";
         ComputerOutput_ImageURL := dataURL screenshot;
         ComputerOutput_CurrentURL := url |}.

(** What [fmt.Println] prints for a [[]SafetyCheck]. *)
Definition show_check (c : SafetyCheck) : string :=
  "{" ++ SafetyCheck_ID c ++ " " ++ SafetyCheck_Code c ++ " "
      ++ SafetyCheck_Message c ++ "}".

Definition show_checks (checks : list SafetyCheck) : string :=
  "[" ++ String.concat " " (map show_check checks) ++ "]".

(** The variables of [BrowserUse] that live across turns. *)
Record Vars := {
  responseID : string;
  callID : string;
  callResp : option ComputerOutput
}.

Definition set_call (v : Vars) (id : string) (out : ComputerOutput) : Vars :=
  {| responseID := responseID v; callID := id; callResp := Some out |}.

(** The [if o.Action != nil] block of one output item. *)
Definition dispatch {d : Driver} (w : World) (b : Browser) (o : OutputItem) (v : Vars)
  : M Vars :=
  match OutputItem_Action o with
  | Some action =>
      out <- wrap "error executing browser action: " (computerCall w b action) ;;
      (if (0 <? Z.of_nat (length (OutputItem_PendingSafetyChecks o)))%Z
       then emit (EvPrintln ("pending safety checks: "
                             ++ show_checks (OutputItem_PendingSafetyChecks o)))
       else ret tt) ;;
      emit (EvDebugComputerOutput out) ;;
      ret (set_call v (OutputItem_CallID o) out)
  | None => ret v
  end.

(** The inner loop [for _, o := range response.Output]: it returns the
    variables and [finalOutput]. *)
Fixpoint scan {d : Driver} (w : World) (b : Browser) (output : list OutputItem)
  (v : Vars) : M (Vars * string) :=
  match output with
  | [] => ret (v, "")
  | o :: rest =>
      v' <- dispatch w b o v ;;
      match OutputItem_Content o with
      | Some content =>
          if OutputItem_Role o =? "assistant" then
            match content with
            | [] => panic index_out_of_range
            | c :: _ => ret (v', Sprint c)
            end
          else scan w b rest v'
      | None => scan w b rest v'
      end
  end.

Definition model : string := "computer-use-preview-2025-03-11".

Definition user_message (instruction : string) : Input :=
  {| Input_Type := ""; Input_CallID := ""; Input_Output := None;
     Input_Role := "user"; Input_Content := instruction;
     Input_AcknowledgedSafetyChecks := [] |}.

Definition call_output (id : string) (out : option ComputerOutput) : Input :=
  {| Input_Type := "computer_call_output"; Input_CallID := id;
     Input_Output := out; Input_Role := ""; Input_Content := "";
     Input_AcknowledgedSafetyChecks := [] |}.

Definition messages_of (instruction : string) (v : Vars) : list Input :=
  if responseID v =? "" then [user_message instruction]
  else [call_output (callID v) (callResp v)].

(** The body of the outer loop after the cancellation check, up to the end
    of the inner loop. *)
Definition turn {d : Driver} (w : World) (b : Browser) (instruction : string)
  (v : Vars) : M (Vars * string) :=
  let messages := messages_of instruction v in
  emit (EvDebugInput messages) ;;
  response <- wrap "error calling OpenAI API: "
                (Responses w model (responseID v) messages) ;;
  emit (EvDebugResponse response) ;;
  scan w b (Response_Output response)
    {| responseID := Response_ID response;
       callID := callID v; callResp := callResp v |}.

(** How the [for] statement of [BrowserUse] is left: by its [break], with
    the final output, or because [i < maxTurns] no longer holds. *)
Inductive LoopExit :=
| Break (finalOutput : string)
| Exhausted.

(** The outer loop with [n] iterations left. *)
Fixpoint turns {d : Driver} (w : World) (b : Browser) (instruction : string)
  (n : nat) (v : Vars) : M LoopExit :=
  match n with
  | O => ret Exhausted
  | S n' =>
      tr <- history ;;
      if ctx_Done w tr then fail "context canceled"
      else
        r <- turn w b instruction v ;;
        let (v', finalOutput) := r in
        if negb (finalOutput =? "") then
          emit (EvPrintln ("Final output: " ++ finalOutput)) ;;
          ret (Break finalOutput)
        else
          emit (EvSleep 1000) ;;
          turns w b instruction n' v'
  end.

Definition initial_vars : Vars :=
  {| responseID := ""; callID := ""; callResp := None |}.

(** [BrowserUse]: [nil] is [Ok tt].  [i] counts from 0 while [i < maxTurns],
    which is [Z.to_nat maxTurns] iterations. *)
Definition BrowserUse {d : Driver} (w : World) (url instruction : string)
  (maxTurns : Z) : M unit :=
  b <- NewBrowser 1024 768 ;;
  b <- wrap "error opening browser: " (Open w b url) ;;
  defer (Close b)
    (turns w b instruction (Z.to_nat maxTurns) initial_vars ;; ret tt).

(** ** Vocabulary of the statements *)

(** What one key name of a [keypress] action leaves in the trace. *)
Definition key_events (key : string) : list Event :=
  match key_of (ToLower key) with
  | Some k => [EvPress k]
  | None => [EvPrintf ("key: " ++ key ++ " is not implemented")]
  end.

(** The page calls of one action, as the table of the dispatcher lists them. *)
Definition action_events (action : Action) : list Event :=
  let kind := Action_Type action in
  let button := if Action_Button action =? "right" then "right" else "left" in
  if kind =? "screenshot" then []
  else if kind =? "type" then [EvInsertText (Action_Text action)]
  else if kind =? "click" then
    [EvMustMoveTo (Action_X action) (Action_Y action);
     EvMustDown button; EvMustUp button; EvMustWaitStable]
  else if kind =? "scroll" then
    [EvMustMoveTo (Action_X action) (Action_Y action);
     EvMustScroll (Action_ScrollX action) (Action_ScrollY action);
     EvMustWaitStable]
  else if kind =? "keypress" then
    (flat_map key_events (Action_Keys action) ++ [EvMustWaitStable])%list
  else if kind =? "wait" then [EvSleep 3000]
  else [].

Definition known_kind (kind : string) : bool :=
  existsb (String.eqb kind)
    ["screenshot"; "type"; "click"; "scroll"; "keypress"; "wait"].

(** The observation built from a screenshot and a location. *)
Definition observation (screenshot : list byte) (url : string) : ComputerOutput :=
  {| ComputerOutput_Type := "input_image";
     ComputerOutput_ImageURL := dataURL screenshot;
     ComputerOutput_CurrentURL := url |}.

(** Entries that act on the page on behalf of an action, as opposed to the
    capture, the exchange with the service and the log. *)
Definition acts_on_page (e : Event) : bool :=
  match e with
  | EvPress _ | EvPrintf _ | EvInsertText _ | EvMustMoveTo _ _
  | EvMustDown _ | EvMustUp _ | EvMustClick _ | EvMustScroll _ _
  | EvMustWaitStable | EvSleep _ => true
  | _ => false
  end.

Definition page_calls (evs : list Event) : list Event := filter acts_on_page evs.

Definition is_post (e : Event) : bool :=
  match e with EvPost _ => true | _ => false end.

Definition is_close (e : Event) : bool :=
  match e with EvMustClose => true | _ => false end.

(** The number of request/response cycles and of [Close] calls in a trace. *)
Definition posts (tr : list Event) : nat := length (filter is_post tr).
Definition closes (tr : list Event) : nat := length (filter is_close tr).

(** The requests of a trace, oldest first, and the call references that
    their [computer_call_output] items carry. *)
Definition requests (tr : list Event) : list Request :=
  flat_map (fun e => match e with EvPost req => [req] | _ => [] end) tr.


(** The observation last handed to [debugComputerOutput], if any. *)
Fixpoint last_observation (evs : list Event) : option ComputerOutput :=
  match evs with
  | [] => None
  | e :: rest =>
      match last_observation rest with
      | Some out => Some out
      | None => match e with EvDebugComputerOutput out => Some out | _ => None end
      end
  end.

(** An item on which the inner loop stops: non-nil content, assistant role. *)
Definition is_answer (o : OutputItem) : bool :=
  match OutputItem_Content o with
  | Some _ => OutputItem_Role o =? "assistant"
  | None => false
  end.

(** The items the inner loop visits: up to and including the first answer. *)
Fixpoint scanned (output : list OutputItem) : list OutputItem :=
  match output with
  | [] => []
  | o :: rest => if is_answer o then [o] else o :: scanned rest
  end.

Definition actions_of (items : list OutputItem) : list Action :=
  flat_map (fun o => match OutputItem_Action o with Some a => [a] | None => [] end)
    items.

(** The call reference of the last item carrying an action, if any. *)
Fixpoint last_call (items : list OutputItem) : option string :=
  match items with
  | [] => None
  | o :: rest =>
      match last_call rest with
      | Some id => Some id
      | None => match OutputItem_Action o with
                | Some _ => Some (OutputItem_CallID o)
                | None => None
                end
      end
  end.

(** The entries that the inner loop may leave: anything but a request, its
    log lines and [Close]. *)
Definition inside_turn (e : Event) : Prop :=
  match e with
  | EvPost _ | EvMustClose | EvDebugInput _ | EvDebugResponse _ => False
  | _ => True
  end.

(** The same world with another cancellation signal. *)
Definition with_ctx (w : World) (done : Trace -> bool) : World :=
  {| OPENAI_API_KEY := OPENAI_API_KEY w;
     ctx_Done := done;
     rod_Page := rod_Page w;
     rod_Screenshot := rod_Screenshot w;
     rod_Info_URL := rod_Info_URL w;
     http_Do := http_Do w |}.

(** [j] whole iterations of the outer loop without the cancellation check:
    each one a turn that yields no final output, then the pacing sleep. *)
Fixpoint complete_turns {d : Driver} (w : World) (b : Browser) (instruction : string)
  (j : nat) (v : Vars) (tr : Trace) : option (Vars * Trace) :=
  match j with
  | O => Some (v, tr)
  | S j' =>
      match turn w b instruction v tr with
      | (Ok (v', finalOutput), tr') =>
          if finalOutput =? "" then
            complete_turns w b instruction j' v' (tr' ++ [EvSleep 1000])%list
          else None
      | _ => None
      end
  end.

(** [j] whole iterations of the outer loop: at the start of each one the
    context is not done, and its turn yields no final output. *)
Fixpoint iterations {d : Driver} (w : World) (b : Browser) (instruction : string)
  (j : nat) (v : Vars) (tr : Trace) : option (Vars * Trace) :=
  match j with
  | O => Some (v, tr)
  | S j' =>
      if ctx_Done w tr then None
      else
        match turn w b instruction v tr with
        | (Ok (v', finalOutput), tr') =>
            if finalOutput =? "" then
              iterations w b instruction j' v' (tr' ++ [EvSleep 1000])%list
            else None
        | _ => None
        end
  end.

(** Assumptions on the world used by several statements. *)
Definition key_is_set (w : World) : Prop := OPENAI_API_KEY w <> "".
Definition page_opens (w : World) : Prop := forall tr, rod_Page w tr = None.
Definition never_cancelled (w : World) : Prop := forall tr, ctx_Done w tr = false.
Definition captures (w : World) : Prop :=
  forall tr, exists png, rod_Screenshot w tr = inr png.

(** The trace once [NewBrowser] and [Open] have succeeded, and the browser
    they leave. *)
Definition opened (url : string) : Trace :=
  [EvMustConnect; EvPage url; EvMustSetViewport 1024 768; EvMustWaitStable].

Definition open_browser (url : string) : Browser :=
  {| width := 1024; height := 768; page := Some url |}.

(** The request that [Responses] posts. *)
Definition request_of (responseID : string) (input : list Input) : Request :=
  {| Request_Model := model;
     Request_Input := input;
     Request_Tools :=
       [ {| Tool_Type := "computer-preview";
            Tool_DisplayWidth := 1024;
            Tool_DisplayHeight := 768;
            Tool_Environment := "browser" |} ];
     Request_Truncation := "auto";
     Request_PreviousResponseID := responseID |}.

(** The trace of a turn up to the exchange with the service. *)
Definition asked (instruction : string) (v : Vars) : list Event :=
  [EvDebugInput (messages_of instruction v);
   EvPost (request_of (responseID v) (messages_of instruction v))].

(** The line printed for the pending safety checks of an item, if any. *)
Definition pending_line (o : OutputItem) : list Event :=
  if (0 <? Z.of_nat (length (OutputItem_PendingSafetyChecks o)))%Z
  then [EvPrintln ("pending safety checks: "
                   ++ show_checks (OutputItem_PendingSafetyChecks o))]
  else [].

(** The error of [BrowserUse] when a capture fails with [err]. *)
Definition capture_error (err : error) : error :=
  "error executing browser action: error taking screenshot: error taking screenshot: "
  ++ err.

(** The events of one dispatched action item with a successful capture. *)
Definition dispatched (o : OutputItem) (a : Action) (out : ComputerOutput)
  : list Event :=
  (action_events a ++ [EvScreenshot; EvMustInfo]
     ++ pending_line o ++ [EvDebugComputerOutput out])%list.

(** The effect of the action block of one item: nothing without an action,
    else the events of the dispatch and the call reference and observation
    it stores. *)
Definition dispatch_post (o : OutputItem) (v v1 : Vars) (evs1 : list Event) : Prop :=
  match OutputItem_Action o with
  | Some a => exists out, evs1 = dispatched o a out
                          /\ v1 = set_call v (OutputItem_CallID o) out
  | None => evs1 = [] /\ v1 = v
  end.

(** What the inner loop makes of a response when no capture fails: the text
    of the first answer item, or the panic on its empty content. *)
Definition final_output (output : list OutputItem) : Res string :=
  match find is_answer output with
  | None => Ok ""
  | Some o =>
      match OutputItem_Content o with
      | Some (c :: _) => Ok (Sprint c)
      | _ => Panic index_out_of_range
      end
  end.

(** What scanning a response leaves, given its outcome. *)
Definition scan_post (w : World) (output : list OutputItem) (v : Vars)
  (evs : list Event) (r : Res (Vars * string)) : Prop :=
  match r with
  | Ok (v', finalOutput) =>
      final_output output = Ok finalOutput
      /\ page_calls evs = flat_map action_events (actions_of (scanned output))
      /\ responseID v' = responseID v
      /\ match last_call (scanned output) with
         | None =>
             callID v' = callID v /\ callResp v' = callResp v
             /\ last_observation evs = None
         | Some id =>
             callID v' = id
             /\ exists out, last_observation evs = Some out /\ callResp v' = Some out
         end
  | Panic msg =>
      final_output output = Panic msg
      /\ page_calls evs = flat_map action_events (actions_of (scanned output))
  | Err e => exists tr err, rod_Screenshot w tr = inl err /\ e = capture_error err
  end.

(** The outcome of the loop, as [BrowserUse] returns it. *)
Definition returned (r : Res LoopExit) : Res unit :=
  match r with
  | Ok _ => Ok tt
  | Err e => Err e
  | Panic msg => Panic msg
  end.

(** How a run of the loop can end. *)
Definition fatal (e : error) : Prop :=
  (exists err, e = "error calling OpenAI API: " ++ err)
  \/ (exists err, e = capture_error err).

Definition loop_outcome (r : Res LoopExit) : Prop :=
  match r with
  | Ok (Break finalOutput) => finalOutput <> ""
  | Ok Exhausted => True
  | Err e => e = "context canceled" \/ fatal e
  | Panic msg => msg = index_out_of_range
  end.

(** A value with which some call of a [Must...] helper panics. *)
Definition driver_panic {d : Driver} (msg : string) : Prop :=
  exists tr, rod_Must tr = Some msg.

(** How a run of the loop can end when the helpers of the driver may fail. *)
Definition loop_ending {d : Driver} (r : Res LoopExit) : Prop :=
  match r with
  | Ok (Break finalOutput) => finalOutput <> ""
  | Ok Exhausted => True
  | Err e => e = "context canceled" \/ fatal e
  | Panic msg => msg = index_out_of_range \/ driver_panic msg
  end.

(** A computation [m] under some driver, against the same computation [m0]
    under a driver whose helpers return: on every history the two agree,
    unless [m] ends in a panic of the driver. *)
Definition refines {d : Driver} {A : Type} (m m0 : M A) : Prop :=
  forall tr,
    m tr = m0 tr
    \/ exists msg tr', m tr = (Panic msg, tr') /\ driver_panic msg.

(** ** Sample worlds and responses *)

Definition click_at (x y : Z) : Action :=
  {| Action_Type := "click"; Action_Keys := []; Action_Button := "left";
     Action_Text := ""; Action_X := x; Action_Y := y;
     Action_ScrollX := 0; Action_ScrollY := 0 |}.

Definition action_of_kind (kind : string) : Action :=
  {| Action_Type := kind; Action_Keys := ["Enter"; "foobar"; "return"];
     Action_Button := ""; Action_Text := "hello"; Action_X := 10; Action_Y := 20;
     Action_ScrollX := 0; Action_ScrollY := 120 |}.

Definition action_item (id : string) (a : Action) : OutputItem :=
  {| OutputItem_Type := "computer_call"; OutputItem_ID := "";
     OutputItem_CallID := id; OutputItem_Status := "completed";
     OutputItem_Action := Some a; OutputItem_Role := "";
     OutputItem_Content := None; OutputItem_PendingSafetyChecks := [] |}.

Definition message_item (content : list any) : OutputItem :=
  {| OutputItem_Type := "message"; OutputItem_ID := "";
     OutputItem_CallID := ""; OutputItem_Status := "completed";
     OutputItem_Action := None; OutputItem_Role := "assistant";
     OutputItem_Content := Some content; OutputItem_PendingSafetyChecks := [] |}.

Definition reasoning_item : OutputItem :=
  {| OutputItem_Type := "reasoning"; OutputItem_ID := "";
     OutputItem_CallID := ""; OutputItem_Status := "";
     OutputItem_Action := None; OutputItem_Role := "";
     OutputItem_Content := None; OutputItem_PendingSafetyChecks := [] |}.

Definition response_of (id : string) (output : list OutputItem) : Response :=
  {| Response_ID := id; Response_Status := "completed"; Response_Output := output |}.

(** The first bytes of a PNG file, standing for a screenshot. *)
Definition sample_png : list byte := [x89; x50; x4e; x47].

(** A world in which nothing fails and the service answers the [k]-th
    request with the [k]-th response of a script, then with empty responses. *)
Definition scripted (responses : list Response) : World :=
  {| OPENAI_API_KEY := "sk-test";
     ctx_Done := fun _ => false;
     rod_Page := fun _ => None;
     rod_Screenshot := fun _ => inr sample_png;
     rod_Info_URL := fun _ => "https://example.com/";
     http_Do := fun tr =>
       inr (nth (posts tr - 1) responses (response_of "resp_idle" [])) |}.

(** A world in which nothing fails and the service always answers [r]. *)
Definition answering (r : Response) : World :=
  {| OPENAI_API_KEY := "sk-test";
     ctx_Done := fun _ => false;
     rod_Page := fun _ => None;
     rod_Screenshot := fun _ => inr sample_png;
     rod_Info_URL := fun _ => "https://example.com/";
     http_Do := fun _ => inr r |}.

(** The same, with a page that cannot be created. *)
Definition unreachable (r : Response) : World :=
  {| OPENAI_API_KEY := "sk-test";
     ctx_Done := fun _ => false;
     rod_Page := fun _ => Some "net::ERR_NAME_NOT_RESOLVED";
     rod_Screenshot := fun _ => inr sample_png;
     rod_Info_URL := fun _ => "https://example.com/";
     http_Do := fun _ => inr r |}.

(** The context is done once [k] requests have been made. *)
Definition done_after (k : nat) (tr : Trace) : bool := (k <=? posts tr)%nat.


Definition click_then_hello : Response :=
  response_of "resp_1"
    [action_item "call_1" (click_at 10 20); message_item [ {| Sprint := "hello" |} ]].

Definition click_then_empty_text : Response :=
  response_of "resp_1"
    [action_item "call_1" (click_at 10 20); message_item [ {| Sprint := "" |} ]].

Definition empty_content : Response :=
  response_of "resp_1" [reasoning_item; message_item []].

Definition only_wait : Response :=
  response_of "resp_1" [action_item "call_1" (action_of_kind "wait")].

Definition only_reasoning : Response := response_of "resp_2" [reasoning_item].

Definition say_hello : Response :=
  response_of "resp_1" [message_item [ {| Sprint := "hello" |} ]].

(** ** More of openai.go: decoding, the log, the caller *)

(** [base64.StdEncoding.DecodeString], as far as its caller sees it: the
    decoded bytes, or [None] for a [CorruptInputError].  Line breaks are
    skipped, the padding is required and must end the input, and the unused
    bits of the last group are not checked. *)
Fixpoint index_of (c : ascii) (s : string) (i : N) : option N :=
  match s with
  | EmptyString => None
  | String d rest => if Ascii.eqb c d then Some i else index_of c rest (N.succ i)
  end.

Definition base64_value (c : ascii) : option N := index_of c base64_alphabet 0.

Definition is_newline (c : ascii) : bool :=
  (Ascii.eqb c "010" || Ascii.eqb c "013")%bool.

Fixpoint skip_newlines (s : string) : string :=
  match s with
  | String c rest => if is_newline c then skip_newlines rest else s
  | EmptyString => EmptyString
  end.

(** The conversion [byte(n)] of Go. *)
Definition low_byte (n : N) : byte :=
  match Byte.of_N (N.land n 255) with
  | Some b => b
  | None => x00
  end.

Definition quantum_byte0 (s0 s1 : N) : byte :=
  low_byte (N.lor (N.shiftl s0 2) (N.shiftr s1 4)).
Definition quantum_byte1 (s1 s2 : N) : byte :=
  low_byte (N.lor (N.shiftl s1 4) (N.shiftr s2 2)).
Definition quantum_byte2 (s2 s3 : N) : byte :=
  low_byte (N.lor (N.shiftl s2 6) s3).

(** [dbuf] holds the values read so far in the current group of four. *)
Fixpoint decode (s : string) (dbuf : list N) : option (list byte) :=
  match s with
  | EmptyString => match dbuf with [] => Some [] | _ => None end
  | String c rest =>
      match base64_value c with
      | Some v =>
          match dbuf with
          | [s0; s1; s2] =>
              option_map
                (fun tl => quantum_byte0 s0 s1 :: quantum_byte1 s1 s2
                           :: quantum_byte2 s2 v :: tl)
                (decode rest [])
          | _ => decode rest (dbuf ++ [v])%list
          end
      | None =>
          if is_newline c then decode rest dbuf
          else if Ascii.eqb c "=" then
            match dbuf with
            | [s0; s1] =>
                match skip_newlines rest with
                | String d rest' =>
                    if Ascii.eqb d "=" then
                      match skip_newlines rest' with
                      | EmptyString => Some [quantum_byte0 s0 s1]
                      | _ => None
                      end
                    else None
                | EmptyString => None
                end
            | [s0; s1; s2] =>
                match skip_newlines rest with
                | EmptyString => Some [quantum_byte0 s0 s1; quantum_byte1 s1 s2]
                | _ => None
                end
            | _ => None
            end
          else None
      end
  end.

Definition DecodeString (s : string) : option (list byte) := decode s [].

(** [strings.Split] with a separator of one byte. *)
Fixpoint Split (s : string) (sep : ascii) : list string :=
  match s with
  | EmptyString => [""]
  | String c rest =>
      if Ascii.eqb c sep then "" :: Split rest sep
      else match Split rest sep with
           | part :: parts => String c part :: parts
           | [] => [String c ""]
           end
  end.

(** Whether a byte occurs in a string. *)
Fixpoint occurs (c : ascii) (s : string) : bool :=
  match s with
  | EmptyString => false
  | String d rest => (Ascii.eqb c d || occurs c rest)%bool
  end.

Definition newline : string := String "010" "".

(** What [%d] prints for a non-negative number. *)
Definition decimal (n : nat) : string := DecimalString.NilEmpty.string_of_uint (Nat.to_uint n).

(** What a [debug...] function does to its host: the texts it writes to
    standard output, one per call of [fmt], and its calls of [os].  The line
    that reports a [CorruptInputError] is an entry of its own, since the
    position it prints is not modelled. *)
Inductive HostEffect :=
| Stdout (text : string)
| StdoutDecodeError
| MkdirAll (path : string) (perm : N)
| WriteFile (name : string) (data : list byte) (perm : N).

Definition index_1_of_1 : string :=
  "runtime error: index out of range [1] with length 1".

(** [debugComputerOutput].  [now] is [time.Now().Format("20060102150405")]
    and [write] the error of [os.WriteFile], if any; the permissions are
    0755 and 0644. *)
Definition debugComputerOutput (now : string) (write : option error)
  (out : ComputerOutput) : Res unit * list HostEffect :=
  let dataurl := ComputerOutput_ImageURL out in
  if dataurl =? "" then
    (Ok tt, [Stdout ("📷 No screenshot available" ++ newline)%string])
  else
    match nth_error (Split dataurl ",") 1 with
    | None => (Panic index_1_of_1, [])
    | Some database64 =>
        match DecodeString database64 with
        | None => (Ok tt, [StdoutDecodeError])
        | Some data =>
            let filename := "screenshots/" ++ now ++ ".png" in
            let saving := [MkdirAll "screenshots" 493; WriteFile filename data 420] in
            match write with
            | Some err =>
                (Ok tt,
                 (saving
                    ++ [Stdout ("❌ Error saving screenshot: " ++ err ++ newline)%string])%list)
            | None =>
                (Ok tt,
                 (saving
                    ++ [Stdout ("📷 Screenshot saved: " ++ filename ++ newline)%string]
                    ++ (if ComputerOutput_CurrentURL out =? "" then []
                        else [Stdout ("🌐 Current URL: "
                                      ++ ComputerOutput_CurrentURL out ++ newline)%string])
                    ++ (if ComputerOutput_Type out =? "" then []
                        else [Stdout ("📊 Output type: "
                                      ++ ComputerOutput_Type out ++ newline)%string]))%list)
            end
        end
    end.

(** [debugInput]: the texts written to standard output, one per call. *)
Definition debugInput_message (i : nat) (v : Input) : list string :=
  ([("📌 Message #" ++ decimal (i + 1) ++ ":" ++ newline)%string]
   ++ (if Input_Role v =? "" then []
       else [("  🔹 Role: " ++ Input_Role v ++ newline)%string])
   ++ (if Input_Type v =? "" then []
       else [("  🔹 Type: " ++ Input_Type v ++ newline)%string])
   ++ (if Input_CallID v =? "" then []
       else [("  🔹 Call ID: " ++ Input_CallID v ++ newline)%string])
   ++ (if Input_Content v =? "" then []
       else
         let contentPreview :=
           if (100 <? String.length (Input_Content v))%nat
           then (substring 0 97 (Input_Content v) ++ "...")%string
           else Input_Content v in
         [("  🔹 Content: " ++ contentPreview ++ newline)%string])
   ++ (match Input_Output v with
       | None => []
       | Some output =>
           [("  🔹 Output details:" ++ newline)%string]
           ++ (if ComputerOutput_CurrentURL output =? "" then []
               else [("    - URL: " ++ ComputerOutput_CurrentURL output ++ newline)%string])
           ++ (if ComputerOutput_Type output =? "" then []
               else [("    - Type: " ++ ComputerOutput_Type output ++ newline)%string])
       end)
   ++ [("  ------------------------------" ++ newline)%string])%list.

Fixpoint debugInput_messages (i : nat) (input : list Input) : list string :=
  match input with
  | [] => []
  | v :: rest => (debugInput_message i v ++ debugInput_messages (S i) rest)%list
  end.

Definition debugInput (input : list Input) : list string :=
  ([(newline ++ "📥 ----- INPUT MESSAGE DETAILS -----" ++ newline)%string]
   ++ debugInput_messages 0 input
   ++ [("📥 ----- END OF INPUT DETAILS -----" ++ newline ++ newline)%string])%list.

(** ** The command: [main] *)

(** The flags after [flag.Parse], with the defaults of [main]. *)
Record Flags := {
  flag_url : string;
  flag_prompt : string;
  flag_maxturns : Z;
  flag_timeout : string
}.

Definition default_flags : Flags :=
  {| flag_url := "https://duckduckgo.com/";
     flag_prompt :=
       "Find out the winner of the Academy Award for Best Picture in 2025 and tell me the title.";
     flag_maxturns := 16;
     flag_timeout := "3m" |}.

(** How the process ends: [main] returns (status 0), [flag.Parse] prints
    the usage and exits, [log.Fatal] prints a message and exits with status
    1, or a panic reaches the top. *)
Inductive Ending :=
| Returns
| Usage (status : Z)
| Fatal (message : string)
| Crashes (message : string).

(** [main].  [parsed] is the outcome of [flag.Parse()] on the command line:
    the flags, or the status with which it leaves the process after printing
    the usage (2 for a malformed command line, 0 for [-h]).
    [timeout_error] is the error of [time.ParseDuration] on the timeout
    flag, if any; the context built from the duration is the one of the
    world. *)
Definition main {d : Driver} (w : World) (parsed : Z + Flags)
  (timeout_error : option error) : Ending * Trace :=
  if OPENAI_API_KEY w =? "" then
    (Fatal "OPENAI_API_KEY environment variable is not set", [])
  else
    match parsed with
    | inl status => (Usage status, [])
    | inr flags =>
        match timeout_error with
        | Some err => (Fatal ("invalid timeout: " ++ err), [])
        | None =>
            match
              BrowserUse w (flag_url flags) (flag_prompt flags) (flag_maxturns flags)
                [EvPrintln ("Prompt: " ++ flag_prompt flags);
                 EvPrintln ("URL   : " ++ flag_url flags)]
            with
            | (Ok _, tr) => (Returns, (tr ++ [EvPrintln "Done"])%list)
            | (Err e, tr) => (Fatal ("Error: " ++ e), tr)
            | (Panic msg, tr) => (Crashes msg, tr)
            end
        end
    end.

(** ** The drivers of the statements *)

(** The driver whose [Must...] helpers all return. *)
#[global] Instance reliable : Driver := {| rod_Must := fun _ => None |}.

(** A driver that loses the page: every helper returns but [MustInfo], which
    panics with the error of [Page.Info]. *)
Definition target_closed : string := "target closed".

Definition losing_the_page : Driver :=
  {| rod_Must := fun tr =>
       match last tr EvMustConnect with
       | EvMustInfo => Some target_closed
       | _ => None
       end |}.

(** ** Vocabulary of the further statements *)

(** The numbers below [k], for checking a property of bytes or of six-bit
    values case by case. *)
Definition below (k : nat) : list N := map N.of_nat (seq 0 k).

(** The responses of a trace, oldest first. *)
Definition responses (tr : list Event) : list Response :=
  flat_map (fun e => match e with EvDebugResponse r => [r] | _ => [] end) tr.

(** What every request of a run looks like: the fixed model, truncation and
    tool declaration, and one input item without acknowledged safety checks,
    which is the goal or the output of a call. *)
Definition request_shape (instruction : string) (req : Request) : Prop :=
  exists id item,
    req = request_of id [item]
    /\ Input_AcknowledgedSafetyChecks item = []
    /\ (item = user_message instruction \/ exists call out, item = call_output call out).

Definition shaped (instruction : string) (e : Event) : Prop :=
  match e with
  | EvPost req => request_shape instruction req
  | _ => True
  end.

(** The driver calls that a run can make: no [MustClick], only the left and
    the right button, only the viewport of 1024 by 768. *)
Definition driven (e : Event) : Prop :=
  match e with
  | EvMustClick _ => False
  | EvMustDown button | EvMustUp button => button = "left" \/ button = "right"
  | EvMustSetViewport width height => width = 1024 /\ height = 768
  | EvSleep milliseconds => milliseconds = 1000 \/ milliseconds = 3000
  | _ => True
  end.

(** The errors that [BrowserUse] can return. *)
Definition BrowserUse_error (e : error) : Prop :=
  (exists cause, e = "error opening browser: error opening page: " ++ cause)
  \/ e = "context canceled"
  \/ (exists cause, e = "error calling OpenAI API: " ++ cause)
  \/ (exists cause, e = capture_error cause).

(** The observations handed to [debugComputerOutput], oldest first. *)
Definition observations (tr : list Event) : list ComputerOutput :=
  flat_map (fun e => match e with EvDebugComputerOutput out => [out] | _ => [] end) tr.

(** A logged observation is one that the dispatcher built. *)
Definition genuine (e : Event) : Prop :=
  match e with
  | EvDebugComputerOutput out => exists screenshot url, out = observation screenshot url
  | _ => True
  end.

(** ** Further sample worlds *)

(** Nothing fails, but the key is not set. *)
Definition keyless (r : Response) : World :=
  {| OPENAI_API_KEY := "";
     ctx_Done := fun _ => false;
     rod_Page := fun _ => None;
     rod_Screenshot := fun _ => inr sample_png;
     rod_Info_URL := fun _ => "https://example.com/";
     http_Do := fun _ => inr r |}.

(** The service answers [r] to the first [k] requests; after that the
    connection fails. *)
Definition failing_after (k : nat) (r : Response) : World :=
  {| OPENAI_API_KEY := "sk-test";
     ctx_Done := fun _ => false;
     rod_Page := fun _ => None;
     rod_Screenshot := fun _ => inr sample_png;
     rod_Info_URL := fun _ => "https://example.com/";
     http_Do := fun tr =>
       if (posts tr <=? k)%nat then inr r
       else inl "failed to send request: connection reset" |}.

(** Nothing fails but the capture of the screenshot. *)
Definition blind (r : Response) : World :=
  {| OPENAI_API_KEY := "sk-test";
     ctx_Done := fun _ => false;
     rod_Page := fun _ => None;
     rod_Screenshot := fun _ => inl "target closed";
     rod_Info_URL := fun _ => "https://example.com/";
     http_Do := fun _ => inr r |}.

Definition sample_flags : Flags :=
  {| flag_url := "https://start/"; flag_prompt := "goal";
     flag_maxturns := 2; flag_timeout := "3m" |}.

Definition wheel_click : Action :=
  {| Action_Type := "click"; Action_Keys := []; Action_Button := "wheel";
     Action_Text := ""; Action_X := 10; Action_Y := 20;
     Action_ScrollX := 0; Action_ScrollY := 0 |}.

(** A browser as [NewBrowser] returns it, before [Open]. *)
Definition unopened_browser : Browser :=
  {| width := 1024; height := 768; page := None |}.

(** * Proofs *)

(** ** The calls of the dispatcher, as traces *)

Ltac unfold_bind := cbn [bind ret Monad_M]; unfold M_bind.

(** With the driver whose helpers return, a call of a helper only leaves
    its entry in the trace. *)
Ltac returning := change (@must reliable) with emit in *.

Section Dispatcher.
Variable w : World.
Variable b : Browser.
Variable p : string.
Hypothesis page_is_open : page b = Some p.

Lemma the_page_open tr : the_page b tr = (Ok p, tr).
Proof. unfold the_page. now rewrite page_is_open. Qed.

Lemma press_key_trace key tr :
  press_key key tr = (Ok tt, (tr ++ key_events key)%list).
Proof. unfold press_key, key_events. now destruct (key_of (ToLower key)). Qed.

Lemma press_keys_trace keys : forall tr,
  press_keys keys tr = (Ok tt, (tr ++ flat_map key_events keys)%list).
Proof.
  induction keys as [|k ks IH]; intros tr; cbn.
  - now rewrite app_nil_r.
  - unfold M_bind. rewrite press_key_trace, IH. now rewrite <- app_assoc.
Qed.

Lemma Keypress_trace keys tr :
  Keypress b keys tr
  = (Ok tt, (tr ++ flat_map key_events keys ++ [EvMustWaitStable])%list).
Proof.
  unfold Keypress. returning. cbn. unfold M_bind.
  rewrite the_page_open, press_keys_trace. cbn. unfold emit.
  now rewrite <- app_assoc.
Qed.

Lemma perform_trace action tr :
  perform b action tr = (Ok tt, (tr ++ action_events action)%list).
Proof.
  unfold perform, action_events.
  destruct (Action_Type action =? "screenshot").
  { cbn. now rewrite app_nil_r. }
  destruct (Action_Type action =? "type").
  { unfold Type_. cbn. unfold M_bind. now rewrite the_page_open. }
  destruct (Action_Type action =? "click").
  { unfold Click. returning. cbn. unfold M_bind. rewrite the_page_open. unfold emit.
    destruct (Action_Button action =? "right"); cbn;
      now rewrite <- !app_assoc. }
  destruct (Action_Type action =? "scroll").
  { unfold Scroll. returning. cbn. unfold M_bind. rewrite the_page_open. unfold emit.
    now rewrite <- !app_assoc. }
  destruct (Action_Type action =? "keypress").
  { apply Keypress_trace. }
  destruct (Action_Type action =? "wait").
  { reflexivity. }
  cbn. now rewrite app_nil_r.
Qed.

Lemma computerCall_spec action tr :
  computerCall w b action tr =
  match rod_Screenshot w (tr ++ action_events action ++ [EvScreenshot])%list with
  | inl err =>
      (Err ("error taking screenshot: error taking screenshot: " ++ err),
       (tr ++ action_events action ++ [EvScreenshot])%list)
  | inr png =>
      (Ok (observation png
             (rod_Info_URL w
                (tr ++ action_events action ++ [EvScreenshot; EvMustInfo])%list)),
       (tr ++ action_events action ++ [EvScreenshot; EvMustInfo])%list)
  end.
Proof.
  unfold computerCall. cbn. unfold M_bind. rewrite perform_trace.
  unfold wrap, Screenshot. cbn. unfold M_bind. rewrite the_page_open.
  unfold emit, history. rewrite <- app_assoc.
  destruct (rod_Screenshot w _) as [err|png]; cbn.
  - reflexivity.
  - unfold GetCurrentUrl. returning. cbn. unfold M_bind. rewrite the_page_open.
    unfold emit, history, M_ret, observation.
    rewrite <- !app_assoc. reflexivity.
Qed.

Lemma dispatch_spec o v tr :
  dispatch w b o v tr =
  match OutputItem_Action o with
  | None => (Ok v, tr)
  | Some a =>
      match rod_Screenshot w (tr ++ action_events a ++ [EvScreenshot])%list with
      | inl err =>
          (Err (capture_error err), (tr ++ action_events a ++ [EvScreenshot])%list)
      | inr png =>
          let out :=
            observation png
              (rod_Info_URL w (tr ++ action_events a ++ [EvScreenshot; EvMustInfo])%list) in
          (Ok (set_call v (OutputItem_CallID o) out),
           (tr ++ action_events a ++ [EvScreenshot; EvMustInfo]
               ++ pending_line o ++ [EvDebugComputerOutput out])%list)
      end
  end.
Proof.
  unfold dispatch. destruct (OutputItem_Action o) as [a|]; [|reflexivity].
  unfold_bind. unfold wrap. rewrite computerCall_spec.
  destruct (rod_Screenshot w _) as [err|png]; [reflexivity|].
  unfold pending_line.
  destruct (0 <? Z.of_nat (length (OutputItem_PendingSafetyChecks o)))%Z;
    cbn; unfold emit, M_ret; cbn; rewrite <- !app_assoc; reflexivity.
Qed.
End Dispatcher.

(** ** The inner loop, item by item *)

Lemma last_observation_app l1 l2 :
  last_observation (l1 ++ l2) =
  match last_observation l2 with
  | Some out => Some out
  | None => last_observation l1
  end.
Proof.
  induction l1 as [|e l1 IH]; cbn.
  - now destruct (last_observation l2).
  - rewrite IH. destruct (last_observation l2); [reflexivity|].
    reflexivity.
Qed.

Lemma page_calls_app l1 l2 : page_calls (l1 ++ l2) = (page_calls l1 ++ page_calls l2)%list.
Proof. apply filter_app. Qed.

Lemma key_events_on_page key : page_calls (key_events key) = key_events key.
Proof. unfold key_events. now destruct (key_of (ToLower key)). Qed.

Lemma keys_events_on_page keys :
  page_calls (flat_map key_events keys) = flat_map key_events keys.
Proof.
  induction keys as [|k ks IH]; [reflexivity|].
  cbn [flat_map]. now rewrite page_calls_app, key_events_on_page, IH.
Qed.

Lemma action_events_on_page a : page_calls (action_events a) = action_events a.
Proof.
  unfold action_events.
  repeat match goal with
         | |- context [if ?c then _ else _] => destruct c
         end; try reflexivity.
  all: now rewrite page_calls_app, keys_events_on_page.
Qed.

Lemma key_events_inside key : Forall inside_turn (key_events key).
Proof.
  unfold key_events. destruct (key_of (ToLower key)); repeat constructor.
Qed.

Lemma action_events_inside a : Forall inside_turn (action_events a).
Proof.
  unfold action_events.
  repeat match goal with
         | |- context [if ?c then _ else _] => destruct c
         end; repeat constructor.
  all: apply Forall_app; split; [|repeat constructor].
  all: apply Forall_flat_map, Forall_forall; intros; apply key_events_inside.
Qed.

Lemma dispatched_page_calls o a out : page_calls (dispatched o a out) = action_events a.
Proof.
  unfold dispatched. rewrite page_calls_app, action_events_on_page.
  unfold pending_line.
  destruct (0 <? _)%Z; cbn; now rewrite app_nil_r.
Qed.

Lemma dispatched_inside o a out : Forall inside_turn (dispatched o a out).
Proof.
  unfold dispatched. apply Forall_app; split; [apply action_events_inside|].
  unfold pending_line. destruct (0 <? _)%Z; repeat constructor.
Qed.

Lemma dispatched_last o a out : last_observation (dispatched o a out) = Some out.
Proof.
  unfold dispatched. rewrite !last_observation_app. reflexivity.
Qed.

Lemma final_output_cons o rest :
  final_output (o :: rest) =
  if is_answer o then
    match OutputItem_Content o with
    | Some (c :: _) => Ok (Sprint c)
    | _ => Panic index_out_of_range
    end
  else final_output rest.
Proof. unfold final_output. cbn [find]. now destruct (is_answer o). Qed.

(** One iteration of the inner loop: the action block, then the content
    test that stops the loop or lets it go on. *)
Lemma scan_cons {d : Driver} w b o rest v tr :
  scan (d:=d) w b (o :: rest) v tr =
  match dispatch (d:=d) w b o v tr with
  | (Ok v', tr') =>
      if is_answer o then
        match OutputItem_Content o with
        | Some (c :: _) => (Ok (v', Sprint c), tr')
        | _ => (Panic index_out_of_range, tr')
        end
      else scan (d:=d) w b rest v' tr'
  | (Err e, tr') => (Err e, tr')
  | (Panic msg, tr') => (Panic msg, tr')
  end.
Proof.
  cbn [scan]. unfold_bind. unfold is_answer.
  destruct (dispatch (d:=d) w b o v tr) as [[v'|e|msg] tr']; try reflexivity.
  destruct (OutputItem_Content o) as [[|c cs]|]; try reflexivity;
    now destruct (OutputItem_Role o =? "assistant").
Qed.

Lemma scan_post_stop w o rest v v1 evs1 r :
  is_answer o = true ->
  dispatch_post o v v1 evs1 ->
  match r with
  | Ok (v', fo) => final_output (o :: rest) = Ok fo /\ v' = v1
  | Panic msg => final_output (o :: rest) = Panic msg
  | Err _ => False
  end ->
  scan_post w (o :: rest) v evs1 r.
Proof.
  intros Hans Hd Hr. unfold dispatch_post in Hd.
  destruct r as [[v' fo]|e|msg]; [| contradiction |];
    cbn [scan_post scanned]; rewrite Hans; unfold actions_of;
    cbn [flat_map last_call];
    destruct (OutputItem_Action o) as [a|].
  - destruct Hd as (out & -> & ->). destruct Hr as [Hf ->].
    cbn [flat_map app]. rewrite ?app_nil_r, dispatched_page_calls.
    split; [exact Hf|]. do 3 (split; [reflexivity|]).
    exists out. split; [apply dispatched_last|reflexivity].
  - destruct Hd as [-> ->]. destruct Hr as [Hf ->]. cbn. repeat split; auto.
  - destruct Hd as (out & -> & ->).
    cbn [flat_map app]. rewrite ?app_nil_r, dispatched_page_calls. repeat split; auto.
  - destruct Hd as [-> ->]. cbn. repeat split; auto.
Qed.

Lemma scan_post_step w o rest v v1 evs1 evs2 r :
  is_answer o = false ->
  dispatch_post o v v1 evs1 ->
  scan_post w rest v1 evs2 r ->
  scan_post w (o :: rest) v (evs1 ++ evs2) r.
Proof.
  intros Hans Hd Hr. unfold dispatch_post in Hd.
  destruct r as [[v' fo]|e|msg]; [| exact Hr |];
    cbn [scan_post scanned] in *; rewrite final_output_cons, Hans;
    unfold actions_of in *; cbn [flat_map last_call];
    rewrite page_calls_app, ?last_observation_app;
    destruct (OutputItem_Action o) as [a|].
  - destruct Hd as (out & -> & ->).
    destruct Hr as (Hf & Hp & Hid & Hcall).
    rewrite dispatched_page_calls, Hp, flat_map_app. cbn [flat_map]. rewrite app_nil_r.
    split; [exact Hf|]. split; [reflexivity|]. split; [exact Hid|].
    destruct (last_call (scanned rest)) as [id|].
    + destruct Hcall as (Hc & out' & Hl & Hr). split; [exact Hc|].
      exists out'. now rewrite Hl.
    + destruct Hcall as (Hc & Hr & Hl). split; [exact Hc|].
      exists out. rewrite Hl, dispatched_last. auto.
  - destruct Hd as [-> ->]. destruct Hr as (Hf & Hp & Hid & Hcall).
    cbn [page_calls filter app flat_map last_observation].
    split; [exact Hf|]. split; [exact Hp|]. split; [exact Hid|].
    destruct (last_call (scanned rest)) as [id|].
    + destruct Hcall as (Hc & out' & Hl & Hr). split; [exact Hc|].
      exists out'. now rewrite Hl.
    + destruct Hcall as (Hc & Hr & Hl). now rewrite Hl.
  - destruct Hd as (out & -> & ->). destruct Hr as (Hf & Hp).
    rewrite dispatched_page_calls, Hp, flat_map_app. cbn [flat_map]. rewrite app_nil_r.
    repeat split; auto.
  - destruct Hd as [-> ->]. destruct Hr as (Hf & Hp). cbn. repeat split; auto.
Qed.

Section Scan.
Variable w : World.
Variable b : Browser.
Variable p : string.
Hypothesis page_is_open : page b = Some p.

(** Whatever the response and the world, the inner loop only appends
    entries of a turn, and its outcome is described by [scan_post]. *)
Lemma scan_spec output : forall v tr,
  exists evs,
    snd (scan w b output v tr) = (tr ++ evs)%list
    /\ Forall inside_turn evs
    /\ scan_post w output v evs (fst (scan w b output v tr)).
Proof.
  induction output as [|o rest IH]; intros v tr.
  - exists []. cbn. rewrite app_nil_r. repeat split; constructor.
  - rewrite scan_cons, (dispatch_spec w b p page_is_open).
    assert (Hstop : forall v1 evs1,
               is_answer o = true -> dispatch_post o v v1 evs1 ->
               Forall inside_turn evs1 ->
               let r := match OutputItem_Content o with
                        | Some (c :: _) => (Ok (v1, Sprint c), (tr ++ evs1)%list)
                        | _ => (Panic index_out_of_range, (tr ++ evs1)%list)
                        end in
               exists evs, snd r = (tr ++ evs)%list /\ Forall inside_turn evs
                           /\ scan_post w (o :: rest) v evs (fst r)).
    { intros v1 evs1 Hans Hd Hin r. exists evs1.
      assert (Hf := final_output_cons o rest). rewrite Hans in Hf.
      subst r. destruct (OutputItem_Content o) as [[|c cs]|];
        (split; [reflexivity|]); (split; [exact Hin|]);
        apply (scan_post_stop w o rest v v1); cbn [fst]; auto. }
    assert (Hstep : forall v1 evs1,
               is_answer o = false -> dispatch_post o v v1 evs1 ->
               Forall inside_turn evs1 ->
               let r := scan w b rest v1 (tr ++ evs1)%list in
               exists evs, snd r = (tr ++ evs)%list /\ Forall inside_turn evs
                           /\ scan_post w (o :: rest) v evs (fst r)).
    { intros v1 evs1 Hans Hd Hin r. subst r.
      destruct (IH v1 (tr ++ evs1)%list) as (evs2 & Hs & Hin2 & Hp).
      exists (evs1 ++ evs2)%list. rewrite Hs, app_assoc.
      split; [reflexivity|]. split; [now apply Forall_app|].
      now apply (scan_post_step w o rest v v1). }
    unfold dispatch_post in Hstop, Hstep.
    destruct (OutputItem_Action o) as [a|] eqn:Ha.
    + destruct (rod_Screenshot w _) as [err|png] eqn:Hshot.
      { eexists. cbn [fst snd scan_post]. split; [reflexivity|]. split.
        - apply Forall_app; split; [apply action_events_inside|repeat constructor].
        - do 2 eexists. split; [exact Hshot|reflexivity]. }
      cbv zeta.
      set (out := observation png _).
      fold (dispatched o a out).
      destruct (is_answer o) eqn:Hans.
      * apply Hstop; eauto using dispatched_inside.
      * apply Hstep; eauto using dispatched_inside.
    + destruct (is_answer o) eqn:Hans.
      * specialize (Hstop v [] eq_refl (conj eq_refl eq_refl) (Forall_nil _)).
        now rewrite app_nil_r in Hstop.
      * specialize (Hstep v [] eq_refl (conj eq_refl eq_refl) (Forall_nil _)).
        now rewrite app_nil_r in Hstep.
Qed.
End Scan.

Lemma eqb_empty_false s : s <> "" -> (s =? "") = false.
Proof. intros H. now apply String.eqb_neq. Qed.

(** ** The turn and the loop, unfolded *)

Lemma turn_unfold {d : Driver} w b instruction v tr :
  turn (d:=d) w b instruction v tr =
  if OPENAI_API_KEY w =? "" then
    (Err "error calling OpenAI API: OPENAI_API_KEY environment variable is not set",
     (tr ++ [EvDebugInput (messages_of instruction v)])%list)
  else
    match http_Do w (tr ++ asked instruction v)%list with
    | inl err =>
        (Err ("error calling OpenAI API: " ++ err), (tr ++ asked instruction v)%list)
    | inr response =>
        scan (d:=d) w b (Response_Output response)
          {| responseID := Response_ID response;
             callID := callID v; callResp := callResp v |}
          (tr ++ asked instruction v ++ [EvDebugResponse response])%list
    end.
Proof.
  unfold turn, Responses, asked, request_of.
  cbn [bind ret Monad_M]. unfold M_bind, wrap, emit.
  destruct (OPENAI_API_KEY w =? ""); [reflexivity|].
  cbn [bind ret Monad_M]. unfold M_bind, history, emit.
  rewrite <- !app_assoc. cbn [app].
  destruct (http_Do w _) as [err|response]; [reflexivity|].
  unfold M_ret. now rewrite <- !app_assoc.
Qed.

Lemma turns_S {d : Driver} w b instruction n v tr :
  turns (d:=d) w b instruction (S n) v tr =
  if ctx_Done w tr then (Err "context canceled", tr)
  else
    match turn (d:=d) w b instruction v tr with
    | (Ok (v', finalOutput), tr') =>
        if negb (finalOutput =? "") then
          (Ok (Break finalOutput),
           (tr' ++ [EvPrintln ("Final output: " ++ finalOutput)])%list)
        else turns (d:=d) w b instruction n v' (tr' ++ [EvSleep 1000])%list
    | (Err e, tr') => (Err e, tr')
    | (Panic msg, tr') => (Panic msg, tr')
    end.
Proof.
  cbn [turns bind ret Monad_M]. unfold M_bind, history.
  destruct (ctx_Done w tr); [reflexivity|].
  destruct (turn w b instruction v tr) as [[[v' fo]|e|msg] tr']; try reflexivity.
  destruct (negb (fo =? "")); reflexivity.
Qed.

Lemma BrowserUse_unfold w url instruction maxTurns :
  BrowserUse w url instruction maxTurns [] =
  match rod_Page w [EvMustConnect; EvPage url] with
  | Some err =>
      (Err ("error opening browser: error opening page: " ++ err),
       [EvMustConnect; EvPage url])
  | None =>
      let run := turns w (open_browser url) instruction (Z.to_nat maxTurns)
                   initial_vars (opened url) in
      (returned (fst run), (snd run ++ [EvMustClose])%list)
  end.
Proof.
  unfold BrowserUse, NewBrowser, Open. returning.
  cbn [bind ret Monad_M]. unfold M_bind, wrap, emit, history, M_ret. cbn [app].
  destruct (rod_Page w [EvMustConnect; EvPage url]) as [err|]; [reflexivity|].
  cbn [app width height]. unfold defer, Close. returning. unfold emit.
  fold (open_browser url). fold (opened url).
  destruct (turns w (open_browser url) instruction (Z.to_nat maxTurns)
              initial_vars (opened url)) as [[exit|e|msg] tr']; reflexivity.
Qed.

(** ** Counting requests and closes *)

Lemma posts_app l1 l2 : posts (l1 ++ l2) = (posts l1 + posts l2)%nat.
Proof. unfold posts. now rewrite filter_app, length_app. Qed.

Lemma closes_app l1 l2 : closes (l1 ++ l2) = (closes l1 + closes l2)%nat.
Proof. unfold closes. now rewrite filter_app, length_app. Qed.

Lemma inside_turn_counts evs :
  Forall inside_turn evs -> posts evs = 0%nat /\ closes evs = 0%nat.
Proof.
  induction 1 as [|e evs He _ [IHp IHc]]; [split; reflexivity|].
  change (e :: evs) with ([e] ++ evs)%list.
  rewrite posts_app, closes_app, IHp, IHc.
  destruct e; try contradiction; split; reflexivity.
Qed.

Lemma fatal_not_cancel e : fatal e -> e <> "context canceled".
Proof.
  intros [[err ->]|[err ->]]; unfold capture_error; cbn; discriminate.
Qed.

Section Loop.
Variable w : World.
Variable b : Browser.
Variable p : string.
Hypothesis page_is_open : page b = Some p.
Variable instruction : string.

(** A turn makes at most one request, never closes the browser, and fails
    only with a fatal error. *)
Lemma turn_spec v tr :
  exists evs,
    snd (turn w b instruction v tr) = (tr ++ evs)%list
    /\ closes evs = 0%nat
    /\ match fst (turn w b instruction v tr) with
       | Ok _ => posts evs = 1%nat
       | Err e => (posts evs <= 1)%nat /\ fatal e
       | Panic msg => posts evs = 1%nat /\ msg = index_out_of_range
       end.
Proof.
  rewrite turn_unfold.
  destruct (OPENAI_API_KEY w =? "").
  { eexists. split; [reflexivity|]. split; [reflexivity|].
    cbn. split; [lia|]. left. eexists. reflexivity. }
  destruct (http_Do w _) as [err|response].
  { eexists. split; [reflexivity|]. split; [reflexivity|].
    cbn. split; [lia|]. left. eexists. reflexivity. }
  destruct (scan_spec w b p page_is_open (Response_Output response)
              {| responseID := Response_ID response;
                 callID := callID v; callResp := callResp v |}
              (tr ++ asked instruction v ++ [EvDebugResponse response])%list)
    as (evs & Hs & Hin & Hpost).
  exists (asked instruction v ++ [EvDebugResponse response] ++ evs)%list.
  destruct (inside_turn_counts evs Hin) as [Hp Hc].
  split; [rewrite Hs; now rewrite <- !app_assoc|].
  split; [rewrite !closes_app, Hc; reflexivity|].
  rewrite !posts_app, Hp.
  destruct (fst (scan w b _ _ _)) as [[v' fo]|e|msg]; cbn [scan_post] in Hpost.
  - reflexivity.
  - split; [cbn; lia|]. right. destruct Hpost as (tr0 & err & _ & ->). eauto.
  - split; [reflexivity|]. destruct Hpost as [Hf _].
    unfold final_output in Hf.
    destruct (find is_answer _) as [o|]; [|discriminate].
    destruct (OutputItem_Content o) as [[|c cs]|]; congruence.
Qed.

(** The loop with [n] iterations left makes at most [n] requests, exactly
    [n] when it is exhausted, and never closes the browser. *)
Lemma turns_spec n : forall v tr,
  exists evs,
    snd (turns w b instruction n v tr) = (tr ++ evs)%list
    /\ closes evs = 0%nat
    /\ (posts evs <= n)%nat
    /\ loop_outcome (fst (turns w b instruction n v tr))
    /\ (fst (turns w b instruction n v tr) = Ok Exhausted -> posts evs = n).
Proof.
  induction n as [|n IH]; intros v tr.
  - exists []. cbn. rewrite app_nil_r. repeat split; auto.
  - rewrite turns_S.
    destruct (ctx_Done w tr).
    { exists []. cbn. rewrite app_nil_r. repeat split; auto; try lia; discriminate. }
    destruct (turn_spec v tr) as (evs & Hs & Hc & Hp).
    destruct (turn w b instruction v tr) as [[[v' fo]|e|msg] tr'];
      cbn [fst snd] in *; subst tr'.
    + destruct (fo =? "") eqn:Hfo; cbn [negb].
      * destruct (IH v' ((tr ++ evs) ++ [EvSleep 1000])%list)
          as (evs' & Hs' & Hc' & Hp' & Ho & Hx).
        exists (evs ++ [EvSleep 1000] ++ evs')%list.
        rewrite Hs', !closes_app, !posts_app, Hc, Hc', Hp.
        split; [now rewrite <- !app_assoc|]. split; [reflexivity|].
        split; [cbn; lia|]. split; [exact Ho|].
        intros H. rewrite (Hx H). reflexivity.
      * exists (evs ++ [EvPrintln ("Final output: " ++ fo)])%list.
        rewrite !closes_app, !posts_app, Hc, Hp.
        split; [now rewrite <- !app_assoc|]. split; [reflexivity|].
        split; [cbn; lia|]. split; [|discriminate].
        cbn. now apply String.eqb_neq.
    + exists evs. destruct Hp as [Hp Hf].
      split; [reflexivity|]. split; [exact Hc|]. split; [lia|].
      split; [now right|discriminate].
    + exists evs. destruct Hp as [Hp ->].
      split; [reflexivity|]. split; [exact Hc|]. split; [lia|].
      split; [reflexivity|discriminate].
Qed.
End Loop.

(** ** Drivers whose helpers may fail *)

(** Under any driver a computation of the program does what it does under
    the driver whose helpers return, up to the first helper that panics. *)

Section AnyDriver.
Context {d : Driver}.

Lemma refines_same {A} (m : M A) : refines (d:=d) m m.
Proof. intros tr. now left. Qed.

Lemma refines_bind {A B} (m m0 : M A) (k k0 : A -> M B) :
  refines (d:=d) m m0 ->
  (forall a, refines (d:=d) (k a) (k0 a)) ->
  refines (d:=d) (bind m k) (bind m0 k0).
Proof.
  intros Hm Hk tr. unfold_bind.
  destruct (Hm tr) as [->|(msg & tr' & -> & Hp)].
  - destruct (m0 tr) as [[a|e|msg] tr']; [apply Hk|now left|now left].
  - right. eauto.
Qed.

Lemma refines_wrap {A} prefix (m m0 : M A) :
  refines (d:=d) m m0 -> refines (d:=d) (wrap prefix m) (wrap prefix m0).
Proof.
  intros Hm tr. unfold wrap.
  destruct (Hm tr) as [->|(msg & tr' & -> & Hp)]; [now left|right; eauto].
Qed.

Lemma must_refines e : refines (d:=d) (must (d:=d) e) (must (d:=reliable) e).
Proof.
  intros tr. unfold must. unfold_bind. unfold emit, history. cbn [rod_Must reliable].
  destruct (rod_Must (Driver:=d) (tr ++ [e])%list) as [msg|] eqn:H.
  - right. exists msg, (tr ++ [e])%list. split; [reflexivity|].
    exists (tr ++ [e])%list. exact H.
  - now left.
Qed.

Ltac refining :=
  repeat first
    [ apply refines_same
    | apply must_refines
    | apply refines_wrap
    | apply refines_bind; [|intros ?]
    | match goal with
      | |- refines (if ?c then _ else _) _ => destruct c
      | |- refines (match ?x with _ => _ end) _ => destruct x
      end ].

Lemma NewBrowser_refines width height :
  refines (d:=d) (NewBrowser (d:=d) width height) (NewBrowser (d:=reliable) width height).
Proof. unfold NewBrowser. refining. Qed.

Lemma Open_refines w b url :
  refines (d:=d) (Open (d:=d) w b url) (Open (d:=reliable) w b url).
Proof. unfold Open. refining. Qed.

Lemma GetCurrentUrl_refines w b :
  refines (d:=d) (GetCurrentUrl (d:=d) w b) (GetCurrentUrl (d:=reliable) w b).
Proof. unfold GetCurrentUrl. refining. Qed.

Lemma perform_refines b action :
  refines (d:=d) (perform (d:=d) b action) (perform (d:=reliable) b action).
Proof. unfold perform, Type_, Click, Scroll, Keypress. refining. Qed.

Lemma computerCall_refines w b action :
  refines (d:=d) (computerCall (d:=d) w b action) (computerCall (d:=reliable) w b action).
Proof.
  unfold computerCall.
  apply refines_bind; [apply perform_refines|intros _].
  apply refines_bind; [apply refines_same|intros screenshot].
  apply refines_bind; [apply GetCurrentUrl_refines|intros url].
  apply refines_same.
Qed.

Lemma dispatch_refines w b o v :
  refines (d:=d) (dispatch (d:=d) w b o v) (dispatch (d:=reliable) w b o v).
Proof.
  unfold dispatch. destruct (OutputItem_Action o) as [action|]; [|apply refines_same].
  apply refines_bind; [apply refines_wrap, computerCall_refines|intros out].
  apply refines_same.
Qed.

Lemma scan_refines w b output : forall v,
  refines (d:=d) (scan (d:=d) w b output v) (scan (d:=reliable) w b output v).
Proof.
  induction output as [|o rest IH]; intros v; [apply refines_same|].
  cbn [scan]. apply refines_bind; [apply dispatch_refines|intros v'].
  destruct (OutputItem_Content o) as [content|]; [|apply IH].
  destruct (OutputItem_Role o =? "assistant"); [apply refines_same|apply IH].
Qed.

Lemma turn_refines w b instruction v :
  refines (d:=d) (turn (d:=d) w b instruction v) (turn (d:=reliable) w b instruction v).
Proof.
  unfold turn.
  apply refines_bind; [apply refines_same|intros _].
  apply refines_bind; [apply refines_same|intros response].
  apply refines_bind; [apply refines_same|intros _].
  apply scan_refines.
Qed.

Lemma turns_refines w b instruction n : forall v,
  refines (d:=d) (turns (d:=d) w b instruction n v)
    (turns (d:=reliable) w b instruction n v).
Proof.
  induction n as [|n IH]; intros v; [apply refines_same|].
  cbn [turns]. apply refines_bind; [apply refines_same|intros tr].
  destruct (ctx_Done w tr); [apply refines_same|].
  apply refines_bind; [apply turn_refines|intros [v' finalOutput]].
  destruct (negb (finalOutput =? "")); [apply refines_same|].
  apply refines_bind; [apply refines_same|intros _]. apply IH.
Qed.

(** The deferred [Close] runs whatever the loop did, and may panic itself. *)
Lemma defer_Close_refines {A} b (m m0 : M A) :
  refines (d:=d) m m0 ->
  refines (d:=d) (defer (Close (d:=d) b) m) (defer (Close (d:=reliable) b) m0).
Proof.
  intros Hm tr. unfold defer, Close, must. unfold_bind. unfold emit, history.
  cbn [rod_Must reliable].
  destruct (Hm tr) as [->|(msg & tr' & -> & Hp)].
  - destruct (m0 tr) as [r tr'].
    destruct (rod_Must (Driver:=d) (tr' ++ [EvMustClose])%list) as [msg|] eqn:H.
    + right. exists msg, (tr' ++ [EvMustClose])%list. split; [reflexivity|].
      exists (tr' ++ [EvMustClose])%list. exact H.
    + now left.
  - right.
    destruct (rod_Must (Driver:=d) (tr' ++ [EvMustClose])%list) as [msg'|] eqn:H.
    + exists msg', (tr' ++ [EvMustClose])%list. split; [reflexivity|].
      exists (tr' ++ [EvMustClose])%list. exact H.
    + exists msg, (tr' ++ [EvMustClose])%list. split; [reflexivity|exact Hp].
Qed.

Lemma BrowserUse_refines w url instruction maxTurns :
  refines (d:=d) (BrowserUse (d:=d) w url instruction maxTurns)
    (BrowserUse (d:=reliable) w url instruction maxTurns).
Proof.
  unfold BrowserUse.
  apply refines_bind; [apply NewBrowser_refines|intros b].
  apply refines_bind; [apply refines_wrap, Open_refines|intros b'].
  apply defer_Close_refines.
  apply refines_bind; [apply turns_refines|intros _]. apply refines_same.
Qed.

(** Whole iterations under any driver lead the loop to where they end. *)
Lemma turns_after_iterations w b instruction j : forall n v tr v_j tr_j,
  iterations (d:=d) w b instruction j v tr = Some (v_j, tr_j) ->
  turns (d:=d) w b instruction (j + n) v tr = turns (d:=d) w b instruction n v_j tr_j.
Proof.
  induction j as [|j IH]; intros n v tr v_j tr_j Hj.
  - cbn in Hj. now injection Hj as -> ->.
  - cbn [iterations] in Hj. cbn [Nat.add]. rewrite turns_S.
    destruct (ctx_Done w tr); [discriminate|].
    destruct (turn w b instruction v tr) as [[[v' fo]|e|msg] tr']; try discriminate.
    destruct (fo =? ""); [|discriminate]. cbn [negb].
    now apply IH.
Qed.

End AnyDriver.

(** How the loop can end under any driver. *)
Lemma turns_endings (d : Driver) w b p instruction n v tr :
  page b = Some p ->
  loop_ending (d:=d) (fst (turns (d:=d) w b instruction n v tr)).
Proof.
  intros Hpage.
  destruct (turns_refines (d:=d) w b instruction n v tr) as [->|(msg & tr' & -> & Hp)].
  - destruct (turns_spec w b p Hpage instruction n v tr) as (evs & _ & _ & _ & Ho & _).
    destruct (fst (turns w b instruction n v tr)) as [[fo|]|e|msg]; cbn in *; auto.
  - cbn. now right.
Qed.

(** ** The dispatcher *)

(** C9.  In a key-press batch the names [Enter] and [return], in any
    casing, press the same key, [input.Enter]; a name that is not in the
    table is printed as not implemented and skipped, and the keys before and
    after it in the same batch are pressed as usual, the call ending normally
    with the wait for the page to settle. *)
Theorem Keypress_presses_known_keys_and_skips_unknown :
  forall (b : Browser) (p : string) (before : list string) (unknown : string)
         (after : list string) (tr : Trace),
    page b = Some p ->
    key_of (ToLower unknown) = None ->
    (forall key, ToLower key = "enter" \/ ToLower key = "return" ->
                 press_key key tr = (Ok tt, (tr ++ [EvPress Enter])%list))
    /\ Keypress b (before ++ unknown :: after) tr
       = (Ok tt,
          (tr ++ flat_map key_events before
              ++ [EvPrintf ("key: " ++ unknown ++ " is not implemented")]
              ++ flat_map key_events after
              ++ [EvMustWaitStable])%list).
Proof.
  intros b p before unknown after tr Hpage Hunknown. split.
  - intros key [H|H]; unfold press_key; now rewrite H.
  - rewrite (Keypress_trace b p Hpage), flat_map_app. cbn [flat_map].
    unfold key_events at 2. rewrite Hunknown.
    now rewrite <- !app_assoc.
Qed.

Lemma unknown_kind_no_events action :
  known_kind (Action_Type action) = false -> action_events action = [].
Proof.
  unfold known_kind, action_events. cbn [existsb].
  intros H. repeat (apply orb_false_elim in H; destruct H as [?E H]).
  now rewrite E, E0, E1, E2, E3, E4.
Qed.

(** C7.  For an action whose kind is none of [screenshot], [type],
    [click], [scroll], [keypress], [wait], the dispatcher makes no page call;
    it takes the screenshot and reads the location, and returns the
    observation.  The unknown kind raises no error: an error can only come
    from the screenshot itself. *)
Theorem computerCall_unknown_kind_is_a_noop :
  forall (w : World) (b : Browser) (p : string) (action : Action) (tr : Trace),
    page b = Some p ->
    known_kind (Action_Type action) = false ->
    perform b action tr = (Ok tt, tr)
    /\ (forall png,
          rod_Screenshot w (tr ++ [EvScreenshot])%list = inr png ->
          computerCall w b action tr
          = (Ok (observation png
                   (rod_Info_URL w (tr ++ [EvScreenshot; EvMustInfo])%list)),
             (tr ++ [EvScreenshot; EvMustInfo])%list))
    /\ (forall e,
          fst (computerCall w b action tr) = Err e ->
          exists err, rod_Screenshot w (tr ++ [EvScreenshot])%list = inl err).
Proof.
  intros w b p action tr Hpage Hkind.
  pose proof (computerCall_spec w b p Hpage action tr) as Hcall.
  pose proof (perform_trace b p Hpage action tr) as Hperform.
  rewrite (unknown_kind_no_events action Hkind) in Hcall, Hperform.
  rewrite app_nil_r in Hperform. cbn [app] in Hcall.
  split; [exact Hperform|].
  split; [intros png H; now rewrite H in Hcall|].
  intros e He. rewrite Hcall in He.
  destruct (rod_Screenshot w (tr ++ [EvScreenshot])%list) as [err|png];
    [eauto|discriminate].
Qed.

(** ** The inner loop *)

Lemma scan_under_captures w b p output v tr :
  page b = Some p ->
  captures w ->
  exists evs,
    snd (scan w b output v tr) = (tr ++ evs)%list
    /\ Forall inside_turn evs
    /\ page_calls evs = flat_map action_events (actions_of (scanned output))
    /\ match final_output output with
       | Ok finalOutput =>
           exists v', fst (scan w b output v tr) = Ok (v', finalOutput)
                      /\ scan_post w output v evs (Ok (v', finalOutput))
       | Err _ => False
       | Panic msg => fst (scan w b output v tr) = Panic msg
       end.
Proof.
  intros Hpage Hcap.
  destruct (scan_spec w b p Hpage output v tr) as (evs & Hs & Hin & Hpost).
  exists evs. split; [exact Hs|]. split; [exact Hin|].
  destruct (fst (scan w b output v tr)) as [[v' fo]|e|msg] eqn:Hfst;
    cbn [scan_post] in Hpost.
  - destruct Hpost as (Hf & Hp & Hrest). split; [exact Hp|].
    rewrite Hf. exists v'. split; [reflexivity|].
    cbn [scan_post]. auto.
  - destruct Hpost as (tr0 & err & Hshot & _).
    destruct (Hcap tr0) as [png Hpng]. congruence.
  - destruct Hpost as [Hf Hp]. split; [exact Hp|]. now rewrite Hf.
Qed.


Lemma no_answer_find output :
  forallb (fun o => negb (is_answer o)) output = true ->
  find is_answer output = None.
Proof.
  induction output as [|o rest IH]; [reflexivity|].
  cbn. intros H. apply andb_prop in H. destruct H as [Ho Hrest].
  apply negb_true_iff in Ho. rewrite Ho. auto.
Qed.

Lemma no_answer_scanned output :
  forallb (fun o => negb (is_answer o)) output = true ->
  scanned output = output.
Proof.
  induction output as [|o rest IH]; [reflexivity|].
  cbn. intros H. apply andb_prop in H. destruct H as [Ho Hrest].
  apply negb_true_iff in Ho. rewrite Ho. now rewrite IH.
Qed.

Lemma find_first_answer pre ans post :
  forallb (fun o => negb (is_answer o)) pre = true ->
  is_answer ans = true ->
  find is_answer (pre ++ ans :: post) = Some ans
  /\ scanned (pre ++ ans :: post) = (pre ++ [ans])%list.
Proof.
  intros Hpre Hans. induction pre as [|o pre IH]; cbn.
  - now rewrite Hans.
  - cbn in Hpre. apply andb_prop in Hpre. destruct Hpre as [Ho Hpre].
    apply negb_true_iff in Ho. rewrite Ho.
    destruct (IH Hpre) as [-> ->]. auto.
Qed.

(** ** The outer loop *)

Section Exhaustion.
Variable w : World.
Variable b : Browser.
Variable p : string.
Hypothesis page_is_open : page b = Some p.
Variable instruction : string.
Hypothesis Hkey : key_is_set w.
Hypothesis Hctx : never_cancelled w.
Hypothesis Hcap : captures w.
Hypothesis Hservice :
  forall tr, exists r,
    http_Do w tr = inr r
    /\ forallb (fun o => negb (is_answer o)) (Response_Output r) = true.

Lemma turn_without_answer v tr :
  exists v' evs,
    turn w b instruction v tr = (Ok (v', ""), (tr ++ evs)%list)
    /\ posts evs = 1%nat /\ closes evs = 0%nat.
Proof.
  pose proof (turn_spec w b p page_is_open instruction v tr) as Hspec.
  rewrite turn_unfold in *.
  rewrite (eqb_empty_false _ Hkey) in *.
  destruct (Hservice (tr ++ asked instruction v)%list) as (r & Hr & Hno).
  rewrite Hr in *.
  destruct Hspec as (evs & Hs & Hc & Hp).
  match type of Hs with
  | snd (scan w b ?o ?v0 ?t) = _ =>
      destruct (scan_under_captures w b p o v0 t page_is_open Hcap)
        as (evs' & _ & _ & _ & Hfinal)
  end.
  unfold final_output in Hfinal. rewrite (no_answer_find _ Hno) in Hfinal.
  destruct Hfinal as (v' & Hfst & _).
  rewrite Hfst in Hp.
  exists v', evs. split; [|auto].
  rewrite <- Hs, <- Hfst. now destruct (scan w b _ _ _).
Qed.

Lemma turns_exhaust n : forall v tr,
  exists evs,
    turns w b instruction n v tr = (Ok Exhausted, (tr ++ evs)%list)
    /\ posts evs = n /\ closes evs = 0%nat.
Proof.
  induction n as [|n IH]; intros v tr.
  - exists []. cbn. now rewrite app_nil_r.
  - rewrite turns_S, Hctx.
    destruct (turn_without_answer v tr) as (v' & evs & -> & Hp & Hc).
    cbn [negb String.eqb].
    destruct (IH v' ((tr ++ evs) ++ [EvSleep 1000])%list) as (evs' & -> & Hp' & Hc').
    exists (evs ++ [EvSleep 1000] ++ evs')%list.
    rewrite !posts_app, !closes_app, Hp, Hp', Hc, Hc', <- !app_assoc.
    auto.
Qed.
End Exhaustion.

(** Whole iterations make one request each, and never close the browser. *)
Lemma iterations_requests (d : Driver) w b p instruction j : forall v tr v_j tr_j,
  page b = Some p ->
  iterations (d:=d) w b instruction j v tr = Some (v_j, tr_j) ->
  exists evs, tr_j = (tr ++ evs)%list /\ posts evs = j /\ closes evs = 0%nat.
Proof.
  induction j as [|j IH]; intros v tr v_j tr_j Hpage Hj.
  - cbn in Hj. injection Hj as <- <-. exists []. now rewrite app_nil_r.
  - cbn [iterations] in Hj. destruct (ctx_Done w tr); [discriminate|].
    destruct (turn_refines (d:=d) w b instruction v tr) as [E|(msg & tr1 & E & _)];
      rewrite E in Hj; [|discriminate].
    destruct (turn_spec w b p Hpage instruction v tr) as (evs & Hs & Hc & Hp).
    destruct (turn (d:=reliable) w b instruction v tr) as [[[v' fo]|e|msg] tr'];
      try discriminate.
    cbn [fst snd] in Hs, Hp. subst tr'. destruct (fo =? ""); [|discriminate].
    destruct (IH _ _ _ _ Hpage Hj) as (evs' & -> & Hp' & Hc').
    exists (evs ++ [EvSleep 1000] ++ evs')%list.
    rewrite !posts_app, !closes_app, Hp, Hp', Hc, Hc', <- !app_assoc.
    auto.
Qed.

(** C2, as amended.  When [maxTurns] iterations complete without a final
    answer (whatever the responses held: no assistant item, or one whose
    text is empty), the loop has made exactly [maxTurns] requests (none for a
    budget below one) and is left by exhaustion.  Whether the loop is left
    by exhaustion or with a final answer, [BrowserUse] closes the browser and
    returns the same [nil]: the return value does not tell the two apart.
    Whatever the driver does, a loop execution ends in one of: a non-empty
    final output, exhaustion, the error [context canceled], a fatal error of
    the service call or of a capture, the index panic on an empty content
    list, or the panic of a helper of the driver; and a fatal error is never
    mistaken for the cancellation. *)
Theorem BrowserUse_exhaustion_returns_nil :
  forall (w : World) (url instruction : string) (maxTurns : Z),
    rod_Page w [EvMustConnect; EvPage url] = None ->
    (forall (d : Driver) v tr,
        iterations (d:=d) w (open_browser url) instruction (Z.to_nat maxTurns)
          initial_vars (opened url) = Some (v, tr) ->
        exists evs,
          tr = (opened url ++ evs)%list
          /\ posts evs = Z.to_nat maxTurns
          /\ turns (d:=d) w (open_browser url) instruction (Z.to_nat maxTurns)
               initial_vars (opened url) = (Ok Exhausted, tr))
    /\ (forall exit tr',
          turns (d:=reliable) w (open_browser url) instruction (Z.to_nat maxTurns)
            initial_vars (opened url) = (Ok exit, tr') ->
          BrowserUse (d:=reliable) w url instruction maxTurns []
          = (Ok tt, (tr' ++ [EvMustClose])%list))
    /\ (forall d : Driver,
          loop_ending (d:=d)
            (fst (turns (d:=d) w (open_browser url) instruction (Z.to_nat maxTurns)
                    initial_vars (opened url))))
    /\ (forall e, fatal e -> e <> "context canceled").
Proof.
  intros w url instruction maxTurns Hopen.
  split; [|split; [|split; [|exact fatal_not_cancel]]].
  - intros d v tr Hit.
    destruct (iterations_requests d w (open_browser url) url instruction _ _ _ _ _
                eq_refl Hit) as (evs & -> & Hp & _).
    pose proof (turns_after_iterations w (open_browser url) instruction _ 0 _ _ _ _ Hit)
      as Hturns.
    rewrite Nat.add_0_r in Hturns. cbn [turns] in Hturns.
    exists evs. split; [reflexivity|]. split; [exact Hp|exact Hturns].
  - intros exit tr' Hturns.
    rewrite BrowserUse_unfold, Hopen. cbv zeta. now rewrite Hturns.
  - intros d. now apply (turns_endings d w (open_browser url) url).
Qed.

(** C3, at the failing input.  When the page cannot be created, [BrowserUse]
    returns the wrapped error after [rod.New().MustConnect()] and
    [browser.Page]: the deferred [Close] is not yet registered and the
    browser is never closed. *)
Theorem BrowserUse_open_failure_leaves_browser_open :
  forall (w : World) (url instruction : string) (maxTurns : Z) (err : error),
    rod_Page w [EvMustConnect; EvPage url] = Some err ->
    BrowserUse w url instruction maxTurns []
    = (Err ("error opening browser: error opening page: " ++ err),
       [EvMustConnect; EvPage url])
    /\ closes (snd (BrowserUse w url instruction maxTurns [])) = 0%nat.
Proof.
  intros w url instruction maxTurns err Hfail.
  rewrite BrowserUse_unfold, Hfail. split; reflexivity.
Qed.

(** On every other path the browser is closed once, as the last call. *)
Lemma BrowserUse_closes_once_after_open w url instruction maxTurns :
  rod_Page w [EvMustConnect; EvPage url] = None ->
  exists evs,
    snd (BrowserUse w url instruction maxTurns [])
    = (opened url ++ evs ++ [EvMustClose])%list
    /\ closes evs = 0%nat
    /\ closes (snd (BrowserUse w url instruction maxTurns [])) = 1%nat.
Proof.
  intros Hopen. rewrite BrowserUse_unfold, Hopen. cbv zeta. cbn [snd].
  destruct (turns_spec w (open_browser url) url eq_refl instruction
              (Z.to_nat maxTurns) initial_vars (opened url))
    as (evs & Hs & Hc & _).
  exists evs. rewrite Hs, <- app_assoc. split; [reflexivity|]. split; [exact Hc|].
  rewrite !closes_app, Hc. reflexivity.
Qed.

(** ** Requests *)

Lemma requests_app l1 l2 : requests (l1 ++ l2) = (requests l1 ++ requests l2)%list.
Proof. apply flat_map_app. Qed.




(** C5, as amended.  When a response holds an assistant-content item whose
    first content element prints as a non-empty text, the actions of the
    items before it (and its own) are performed on the page first, then the
    final output is printed and the loop is left, however many turns remain:
    no further request is made and the items after the answer are not
    visited. *)
Theorem action_before_final_answer :
  forall (w : World) (b : Browser) (p : string) (instruction : string)
         (n : nat) (v : Vars) (tr : Trace) (r : Response)
         (pre : list OutputItem) (ans : OutputItem) (c : any) (cs : list any)
         (post : list OutputItem),
    page b = Some p ->
    captures w ->
    key_is_set w ->
    ctx_Done w tr = false ->
    http_Do w (tr ++ asked instruction v)%list = inr r ->
    Response_Output r = (pre ++ ans :: post)%list ->
    forallb (fun o => negb (is_answer o)) pre = true ->
    OutputItem_Role ans = "assistant" ->
    OutputItem_Content ans = Some (c :: cs) ->
    Sprint c <> "" ->
    exists evs,
      turns w b instruction (S n) v tr
      = (Ok (Break (Sprint c)),
         (tr ++ asked instruction v ++ [EvDebugResponse r] ++ evs
             ++ [EvPrintln ("Final output: " ++ Sprint c)])%list)
      /\ page_calls evs = flat_map action_events (actions_of (pre ++ [ans]))
      /\ Forall inside_turn evs.
Proof.
  intros w b p instruction n v tr r pre ans c cs post
         Hpage Hcap Hkey Hctx Hr Hout Hpre Hrole Hcontent Hne.
  assert (Hans : is_answer ans = true).
  { unfold is_answer. now rewrite Hcontent, Hrole. }
  destruct (find_first_answer pre ans post Hpre Hans) as [Hfind Hscanned].
  rewrite turns_S, Hctx, turn_unfold, (eqb_empty_false _ Hkey), Hr, Hout.
  match goal with
  | |- context [scan w b ?o ?v0 ?t] =>
      destruct (scan_under_captures w b p o v0 t Hpage Hcap)
        as (evs & Hs & Hin & Hp & Hfinal)
  end.
  unfold final_output in Hfinal. rewrite Hfind, Hcontent in Hfinal.
  destruct Hfinal as (v' & Hfst & _).
  exists evs. rewrite Hscanned in Hp. split; [|auto].
  match goal with
  | |- context [scan w b ?o ?v0 ?t] =>
      destruct (scan w b o v0 t) as [res tr']
  end.
  cbn [fst snd] in Hs, Hfst. subst res tr'.
  rewrite (eqb_empty_false _ Hne). cbn [negb].
  now rewrite <- !app_assoc.
Qed.

(** C10.  A response whose first assistant-content item has a non-nil but
    empty content list makes [BrowserUse] panic with an index out of range:
    the run yields neither [nil] nor an error value.  (The deferred [Close]
    still runs while the panic unwinds.) *)
Theorem empty_assistant_content_panics :
  forall (w : World) (url instruction : string) (maxTurns : Z) (r : Response)
         (pre : list OutputItem) (o : OutputItem) (post : list OutputItem),
    0 < maxTurns ->
    key_is_set w ->
    captures w ->
    rod_Page w [EvMustConnect; EvPage url] = None ->
    ctx_Done w (opened url) = false ->
    http_Do w (opened url ++ asked instruction initial_vars)%list = inr r ->
    Response_Output r = (pre ++ o :: post)%list ->
    forallb (fun o => negb (is_answer o)) pre = true ->
    OutputItem_Role o = "assistant" ->
    OutputItem_Content o = Some [] ->
    exists tr,
      BrowserUse w url instruction maxTurns [] = (Panic index_out_of_range, tr)
      /\ closes tr = 1%nat.
Proof.
  intros w url instruction maxTurns r pre o post
         Hpos Hkey Hcap Hopen Hctx Hr Hout Hpre Hrole Hcontent.
  assert (Hans : is_answer o = true).
  { unfold is_answer. now rewrite Hcontent, Hrole. }
  destruct (find_first_answer pre o post Hpre Hans) as [Hfind _].
  destruct (BrowserUse_closes_once_after_open w url instruction maxTurns Hopen)
    as (evs0 & _ & _ & Hclose).
  cut (exists tr,
          BrowserUse w url instruction maxTurns [] = (Panic index_out_of_range, tr)).
  { intros [tr Hrun]. exists tr. split; [exact Hrun|]. now rewrite Hrun in Hclose. }
  rewrite BrowserUse_unfold, Hopen. cbv zeta.
  destruct (Z.to_nat maxTurns) as [|n] eqn:Hn; [lia|].
  rewrite turns_S, Hctx, turn_unfold, (eqb_empty_false _ Hkey), Hr, Hout.
  match goal with
  | |- context [scan w ?b ?o ?v0 ?t] =>
      destruct (scan_under_captures w b url o v0 t eq_refl Hcap)
        as (evs & _ & _ & _ & Hfinal);
      destruct (scan w b o v0 t) as [res tr']
  end.
  unfold final_output in Hfinal. rewrite Hfind, Hcontent in Hfinal.
  cbn [fst] in Hfinal. subst res. cbn [fst snd returned]. eauto.
Qed.

(** ** Cancellation *)

Lemma dispatch_ctx {d : Driver} w done b o v tr :
  dispatch (d:=d) (with_ctx w done) b o v tr = dispatch (d:=d) w b o v tr.
Proof. reflexivity. Qed.

Lemma scan_ctx {d : Driver} w done b output : forall v tr,
  scan (d:=d) (with_ctx w done) b output v tr = scan (d:=d) w b output v tr.
Proof.
  induction output as [|o rest IH]; intros v tr; [reflexivity|].
  rewrite !scan_cons, dispatch_ctx.
  destruct (dispatch (d:=d) w b o v tr) as [[v'|e|msg] tr']; try reflexivity.
  destruct (is_answer o); [reflexivity|apply IH].
Qed.

Lemma turn_ctx {d : Driver} w done b instruction v tr :
  turn (d:=d) (with_ctx w done) b instruction v tr = turn (d:=d) w b instruction v tr.
Proof.
  rewrite !turn_unfold. cbn [OPENAI_API_KEY http_Do with_ctx].
  destruct (OPENAI_API_KEY w =? ""); [reflexivity|].
  destruct (http_Do w _); [reflexivity|apply scan_ctx].
Qed.

(** A turn fails only with a fatal error, whatever the driver does. *)
Lemma turn_error_is_fatal (d : Driver) w b p instruction v tr e tr' :
  page b = Some p ->
  turn (d:=d) w b instruction v tr = (Err e, tr') -> fatal e.
Proof.
  intros Hpage Hturn.
  destruct (turn_refines (d:=d) w b instruction v tr) as [E|(msg & tr1 & E & _)];
    rewrite E in Hturn; [|discriminate].
  destruct (turn_spec w b p Hpage instruction v tr) as (evs & _ & _ & Hout).
  rewrite Hturn in Hout. cbn [fst] in Hout. tauto.
Qed.

(** C8.  Whatever the driver does: at the start of every iteration the
    loop looks at the context; if it is done the loop returns
    [context canceled] at once, whatever the number of turns left, without a
    request or a page call, and this holds for the first iteration as for
    the one that follows any number of whole iterations.  A turn in progress
    does not look at the context.  The loop returns [context canceled] only
    so: after a number of whole iterations, at a point where the context is
    done. *)
Theorem cancellation_is_checked_at_turn_start :
  forall (d : Driver) (w : World) (b : Browser) (p : string) (instruction : string),
    page b = Some p ->
    (forall n v tr,
        ctx_Done w tr = true ->
        turns (d:=d) w b instruction (S n) v tr = (Err "context canceled", tr))
    /\ (forall j n v0 tr0 v tr,
          iterations (d:=d) w b instruction j v0 tr0 = Some (v, tr) ->
          ctx_Done w tr = true ->
          turns (d:=d) w b instruction (j + S n) v0 tr0 = (Err "context canceled", tr))
    /\ (forall done v tr,
          turn (d:=d) (with_ctx w done) b instruction v tr
          = turn (d:=d) w b instruction v tr)
    /\ (forall n v tr tr',
          turns (d:=d) w b instruction n v tr = (Err "context canceled", tr') ->
          exists j v_j,
            (j < n)%nat
            /\ iterations (d:=d) w b instruction j v tr = Some (v_j, tr')
            /\ ctx_Done w tr' = true).
Proof.
  intros d w b p instruction Hpage. split; [|split; [|split]].
  - intros n v tr Hdone. now rewrite turns_S, Hdone.
  - intros j n v0 tr0 v tr Hj Hdone.
    rewrite (turns_after_iterations w b instruction j (S n) v0 tr0 v tr Hj).
    now rewrite turns_S, Hdone.
  - intros done v tr. apply turn_ctx.
  - induction n as [|n IH]; intros v tr tr' Hturns; [discriminate|].
    rewrite turns_S in Hturns.
    destruct (ctx_Done w tr) eqn:Hdone.
    { injection Hturns as <-. exists 0%nat, v. split; [lia|]. split; [reflexivity|exact Hdone]. }
    destruct (turn (d:=d) w b instruction v tr) as [[[v' fo]|e|msg] tr1] eqn:Hturn.
    + destruct (fo =? "") eqn:Hfo; cbn [negb] in Hturns; [|discriminate].
      destruct (IH _ _ _ Hturns) as (j & v_j & Hj & Hcomplete & Hd).
      exists (S j), v_j. split; [lia|]. split; [|exact Hd].
      cbn [iterations]. now rewrite Hdone, Hturn, Hfo.
    + apply (turn_error_is_fatal d w b p) in Hturn; [|exact Hpage].
      apply fatal_not_cancel in Hturn. congruence.
    + discriminate.
Qed.

(** ** The statements at sample inputs *)

(** Each lemma of this part applies one of the theorems above to a sample
    world, or runs the program in one. *)

Lemma scripted_captures responses : captures (scripted responses).
Proof. intros tr. exists sample_png. reflexivity. Defined.

Lemma answering_captures r : captures (answering r).
Proof. intros tr. exists sample_png. reflexivity. Defined.

Lemma Keypress_sample :
  page (open_browser "https://start/") = Some "https://start/"
  /\ key_of (ToLower "foobar") = None
  /\ press_key "Enter" [] = (Ok tt, [EvPress Enter])
  /\ press_key "return" [] = (Ok tt, [EvPress Enter])
  /\ Keypress (open_browser "https://start/") ["Enter"; "foobar"; "RETURN"; "Tab"] []
     = (Ok tt,
        [EvPress Enter; EvPrintf "key: foobar is not implemented";
         EvPress Enter; EvPress Tab; EvMustWaitStable]).
Proof.
  destruct (Keypress_presses_known_keys_and_skips_unknown
              (open_browser "https://start/") "https://start/"
              ["Enter"] "foobar" ["RETURN"; "Tab"] [] eq_refl eq_refl)
    as [Hsame Hbatch].
  split; [reflexivity|]. split; [reflexivity|].
  split; [apply Hsame; left; reflexivity|].
  split; [apply Hsame; right; reflexivity|].
  exact Hbatch.
Defined.

Lemma computerCall_drag_sample :
  page (open_browser "https://start/") = Some "https://start/"
  /\ known_kind (Action_Type (action_of_kind "drag")) = false
  /\ computerCall (answering only_wait) (open_browser "https://start/")
       (action_of_kind "drag") []
     = (Ok (observation sample_png "https://example.com/"), [EvScreenshot; EvMustInfo]).
Proof.
  split; [reflexivity|]. split; [reflexivity|].
  apply (proj1 (proj2 (computerCall_unknown_kind_is_a_noop
                         (answering only_wait) (open_browser "https://start/")
                         "https://start/" (action_of_kind "drag") []
                         eq_refl eq_refl))).
  reflexivity.
Defined.



Lemma exhaustion_sample :
  rod_Page (scripted [click_then_empty_text]) [EvMustConnect; EvPage "https://start/"]
  = None
  /\ exists v tr evs,
       iterations (scripted [click_then_empty_text]) (open_browser "https://start/")
         "goal" (Z.to_nat 2) initial_vars (opened "https://start/") = Some (v, tr)
       /\ tr = (opened "https://start/" ++ evs)%list
       /\ posts evs = Z.to_nat 2
       /\ turns (scripted [click_then_empty_text]) (open_browser "https://start/")
            "goal" (Z.to_nat 2) initial_vars (opened "https://start/")
          = (Ok Exhausted, tr).
Proof.
  split; [reflexivity|].
  destruct (iterations (scripted [click_then_empty_text]) (open_browser "https://start/")
              "goal" (Z.to_nat 2) initial_vars (opened "https://start/"))
    as [[v tr]|] eqn:Hit; [|vm_compute in Hit; discriminate Hit].
  destruct (proj1 (BrowserUse_exhaustion_returns_nil
                     (scripted [click_then_empty_text]) "https://start/" "goal" 2
                     eq_refl) reliable v tr Hit)
    as (evs & Htr & Hposts & Hturns).
  exists v, tr, evs. auto.
Defined.

(** C2, counterexample.  One run leaves the loop with the final answer
    [hello], another exhausts its budget of one turn; [BrowserUse] returns the
    same value in both.  Three more runs produce none of final answer,
    exhaustion and cancellation: the request of the first fails, the second
    panics on an empty content list, the third on the failure of
    [MustInfo]. *)
Lemma exhaustion_and_final_answer_both_return_nil :
  fst (turns (answering say_hello) (open_browser "https://start/") "say hello"
         (Z.to_nat 1) initial_vars (opened "https://start/"))
  = Ok (Break "hello")
  /\ fst (turns (answering only_reasoning) (open_browser "https://start/") "say hello"
            (Z.to_nat 1) initial_vars (opened "https://start/"))
     = Ok Exhausted
  /\ fst (BrowserUse (answering say_hello) "https://start/" "say hello" 1 [])
     = fst (BrowserUse (answering only_reasoning) "https://start/" "say hello" 1 [])
  /\ fst (turns (failing_after 0 say_hello) (open_browser "https://start/") "say hello"
            (Z.to_nat 1) initial_vars (opened "https://start/"))
     = Err "error calling OpenAI API: failed to send request: connection reset"
  /\ fst (turns (answering empty_content) (open_browser "https://start/") "say hello"
            (Z.to_nat 1) initial_vars (opened "https://start/"))
     = Panic index_out_of_range
  /\ fst (turns (d:=losing_the_page) (answering only_wait)
            (open_browser "https://start/") "say hello" (Z.to_nat 1) initial_vars
            (opened "https://start/"))
     = Panic target_closed.
Proof. repeat split; reflexivity. Qed.

Lemma open_failure_sample :
  rod_Page (unreachable say_hello) [EvMustConnect; EvPage "https://nowhere.invalid/"]
  = Some "net::ERR_NAME_NOT_RESOLVED"
  /\ BrowserUse (unreachable say_hello) "https://nowhere.invalid/" "say hello" 16 []
     = (Err "error opening browser: error opening page: net::ERR_NAME_NOT_RESOLVED",
        [EvMustConnect; EvPage "https://nowhere.invalid/"])
  /\ closes (snd (BrowserUse (unreachable say_hello) "https://nowhere.invalid/"
                    "say hello" 16 [])) = 0%nat.
Proof.
  split; [reflexivity|].
  exact (BrowserUse_open_failure_leaves_browser_open
           (unreachable say_hello) "https://nowhere.invalid/" "say hello" 16
           "net::ERR_NAME_NOT_RESOLVED" eq_refl).
Defined.



Lemma final_answer_sample :
  page (open_browser "https://start/") = Some "https://start/"
  /\ captures (answering click_then_hello)
  /\ exists evs,
       turns (answering click_then_hello) (open_browser "https://start/") "goal" 5
         initial_vars (opened "https://start/")
       = (Ok (Break "hello"),
          (opened "https://start/" ++ asked "goal" initial_vars
             ++ [EvDebugResponse click_then_hello] ++ evs
             ++ [EvPrintln "Final output: hello"])%list)
       /\ page_calls evs
          = [EvMustMoveTo 10 20; EvMustDown "left"; EvMustUp "left"; EvMustWaitStable]
       /\ Forall inside_turn evs.
Proof.
  split; [reflexivity|]. split; [apply answering_captures|].
  apply (action_before_final_answer
           (answering click_then_hello) (open_browser "https://start/")
           "https://start/" "goal" 4 initial_vars (opened "https://start/")
           click_then_hello
           [action_item "call_1" (click_at 10 20)]
           (message_item [ {| Sprint := "hello" |} ]) {| Sprint := "hello" |} [] []).
  - reflexivity.
  - apply answering_captures.
  - discriminate.
  - reflexivity.
  - reflexivity.
  - reflexivity.
  - reflexivity.
  - reflexivity.
  - reflexivity.
  - discriminate.
Defined.

(** C5, counterexample.  The response holds a click and an assistant item
    whose only content element is the empty string: the loop is not left,
    a second request is made and the budget of two turns is exhausted. *)
Lemma empty_text_does_not_end_the_loop :
  is_answer (message_item [ {| Sprint := "" |} ]) = true
  /\ fst (turns (scripted [click_then_empty_text]) (open_browser "https://start/")
            "goal" (Z.to_nat 2) initial_vars (opened "https://start/"))
     = Ok Exhausted
  /\ posts (snd (BrowserUse (scripted [click_then_empty_text]) "https://start/"
                   "goal" 2 [])) = 2%nat.
Proof. repeat split; reflexivity. Qed.

Lemma empty_content_sample :
  0 < 16
  /\ captures (answering empty_content)
  /\ exists tr,
       BrowserUse (answering empty_content) "https://start/" "goal" 16 []
       = (Panic index_out_of_range, tr)
       /\ closes tr = 1%nat.
Proof.
  split; [reflexivity|]. split; [apply answering_captures|].
  apply (empty_assistant_content_panics
           (answering empty_content) "https://start/" "goal" 16 empty_content
           [reasoning_item] (message_item []) []).
  - reflexivity.
  - discriminate.
  - apply answering_captures.
  - reflexivity.
  - reflexivity.
  - reflexivity.
  - reflexivity.
  - reflexivity.
  - reflexivity.
  - reflexivity.
Defined.

Lemma cancellation_sample :
  page (open_browser "https://start/") = Some "https://start/"
  /\ exists v tr,
       iterations (with_ctx (answering only_wait) (done_after 2))
         (open_browser "https://start/") "goal" 2 initial_vars (opened "https://start/")
       = Some (v, tr)
       /\ ctx_Done (with_ctx (answering only_wait) (done_after 2)) tr = true
       /\ posts tr = 2%nat
       /\ turns (with_ctx (answering only_wait) (done_after 2))
            (open_browser "https://start/") "goal" (2 + 14) initial_vars
            (opened "https://start/")
          = (Err "context canceled", tr).
Proof.
  split; [reflexivity|].
  do 2 eexists.
  split; [reflexivity|]. split; [reflexivity|]. split; [reflexivity|].
  eapply (proj1 (proj2 (cancellation_is_checked_at_turn_start reliable
                         (with_ctx (answering only_wait) (done_after 2))
                         (open_browser "https://start/") "https://start/" "goal"
                         eq_refl)) 2%nat 13%nat initial_vars (opened "https://start/"));
    reflexivity.
Defined.

(** The end-to-end scenario: the first response holds only the final answer
    [hello]; one request is made, the answer is printed, [nil] is returned
    and the browser is closed once. *)
Example say_hello_run :
  let run := BrowserUse (answering say_hello) "https://start/" "say hello" 16 [] in
  fst run = Ok tt
  /\ posts (snd run) = 1%nat
  /\ closes (snd run) = 1%nat
  /\ In (EvPrintln "Final output: hello") (snd run).
Proof. cbv zeta. repeat split; [reflexivity ..|]. vm_compute. tauto. Qed.

(** A context that is done once two requests have been made: the second
    turn runs to its end, pacing sleep included, and the third iteration
    returns [context canceled]; the browser is closed. *)
Example cancelled_after_two_turns :
  let run := BrowserUse (with_ctx (answering only_wait) (done_after 2))
               "https://start/" "goal" 16 [] in
  fst run = Err "context canceled"
  /\ posts (snd run) = 2%nat
  /\ closes (snd run) = 1%nat
  /\ page_calls (snd run)
     = [EvMustWaitStable; EvSleep 3000; EvSleep 1000; EvSleep 3000; EvSleep 1000].
Proof. cbv zeta. repeat split; reflexivity. Qed.

(** A driver that loses the page during the first turn: the action is
    performed and the screenshot taken, [MustInfo] panics, and the deferred
    [Close] still runs; one request was made. *)
Example lost_page_run :
  let run := BrowserUse (d:=losing_the_page) (answering only_wait)
               "https://start/" "goal" 16 [] in
  fst run = Panic target_closed
  /\ posts (snd run) = 1%nat
  /\ closes (snd run) = 1%nat
  /\ last (snd run) EvMustConnect = EvMustClose.
Proof. cbv zeta. repeat split; reflexivity. Qed.

(** * More of the code *)

(** ** Checking a property for every value below a bound *)

Lemma below_complete k n : (n < N.of_nat k)%N -> In n (below k).
Proof.
  intros H. unfold below. apply in_map_iff. exists (N.to_nat n).
  split; [apply N2Nat.id|]. apply in_seq. lia.
Qed.

Lemma forallb_below f k :
  forallb f (below k) = true -> forall n, (n < N.of_nat k)%N -> f n = true.
Proof.
  intros H n Hn. rewrite forallb_forall in H. apply H, below_complete, Hn.
Qed.

Lemma byte_below x : (Byte.to_N x < 256)%N.
Proof. pose proof (Byte.to_N_bounded x). lia. Qed.

Lemma low_byte_of x n : N.land n 255 = Byte.to_N x -> low_byte n = x.
Proof. intros H. unfold low_byte. now rewrite H, Byte.of_to_N. Qed.

Lemma base64_value_char n : (n < 64)%N -> base64_value (base64_char n) = Some n.
Proof.
  intros H.
  assert (Hall : forallb (fun n => match base64_value (base64_char n) with
                                   | Some m => N.eqb m n
                                   | None => false
                                   end) (below 64) = true) by (vm_compute; reflexivity).
  pose proof (forallb_below _ 64 Hall n H) as Hn. cbv beta in Hn.
  destruct (base64_value (base64_char n)) as [m|]; [|discriminate].
  apply N.eqb_eq in Hn. now subst.
Qed.

(** ** The bytes of a quantum *)

Lemma land3_below a : (a < 256)%N -> (N.land a 3 < 4)%N.
Proof.
  intros H. apply N.ltb_lt.
  apply (forallb_below (fun a => N.ltb (N.land a 3) 4) 256); [vm_compute; reflexivity|exact H].
Qed.

Lemma land15_below b : (b < 256)%N -> (N.land b 15 < 16)%N.
Proof.
  intros H. apply N.ltb_lt.
  apply (forallb_below (fun b => N.ltb (N.land b 15) 16) 256); [vm_compute; reflexivity|exact H].
Qed.

Lemma shiftr4_below b : (b < 256)%N -> (N.shiftr b 4 < 16)%N.
Proof.
  intros H. apply N.ltb_lt.
  apply (forallb_below (fun b => N.ltb (N.shiftr b 4) 16) 256); [vm_compute; reflexivity|exact H].
Qed.

Lemma shiftr6_below c : (c < 256)%N -> (N.shiftr c 6 < 4)%N.
Proof.
  intros H. apply N.ltb_lt.
  apply (forallb_below (fun c => N.ltb (N.shiftr c 6) 4) 256); [vm_compute; reflexivity|exact H].
Qed.

Lemma byte0_back a b4 :
  (a < 256)%N -> (b4 < 16)%N ->
  N.land (N.lor (N.shiftl (N.shiftr a 2) 2)
            (N.shiftr (N.lor (N.shiftl (N.land a 3) 4) b4) 4)) 255 = a.
Proof.
  intros Ha Hb. apply N.eqb_eq.
  pose proof (forallb_below
                (fun a => forallb
                   (fun b4 => N.eqb
                      (N.land (N.lor (N.shiftl (N.shiftr a 2) 2)
                                 (N.shiftr (N.lor (N.shiftl (N.land a 3) 4) b4) 4)) 255) a)
                   (below 16)) 256) as Hall.
  cbv beta in Hall.
  apply (forallb_below _ 16 (Hall ltac:(vm_compute; reflexivity) a Ha) b4 Hb).
Qed.

Lemma byte1_back a3 b c6 :
  (a3 < 4)%N -> (b < 256)%N -> (c6 < 4)%N ->
  N.land (N.lor (N.shiftl (N.lor (N.shiftl a3 4) (N.shiftr b 4)) 4)
            (N.shiftr (N.lor (N.shiftl (N.land b 15) 2) c6) 2)) 255 = b.
Proof.
  intros Ha Hb Hc. apply N.eqb_eq.
  pose proof (forallb_below
                (fun a3 => forallb
                   (fun b => forallb
                      (fun c6 => N.eqb
                         (N.land (N.lor (N.shiftl (N.lor (N.shiftl a3 4) (N.shiftr b 4)) 4)
                                    (N.shiftr (N.lor (N.shiftl (N.land b 15) 2) c6) 2)) 255) b)
                      (below 4)) (below 256)) 4) as Hall.
  cbv beta in Hall.
  pose proof (forallb_below _ 256 (Hall ltac:(vm_compute; reflexivity) a3 Ha) b Hb) as Hb'.
  cbv beta in Hb'.
  apply (forallb_below _ 4 Hb' c6 Hc).
Qed.

Lemma byte2_back b15 c :
  (b15 < 16)%N -> (c < 256)%N ->
  N.land (N.lor (N.shiftl (N.lor (N.shiftl b15 2) (N.shiftr c 6)) 6) (N.land c 63)) 255 = c.
Proof.
  intros Hb Hc. apply N.eqb_eq.
  pose proof (forallb_below
                (fun b15 => forallb
                   (fun c => N.eqb
                      (N.land (N.lor (N.shiftl (N.lor (N.shiftl b15 2) (N.shiftr c 6)) 6)
                                 (N.land c 63)) 255) c)
                   (below 256)) 16) as Hall.
  cbv beta in Hall.
  apply (forallb_below _ 256 (Hall ltac:(vm_compute; reflexivity) b15 Hb) c Hc).
Qed.

Lemma sextet0_below a : (a < 256)%N -> (N.shiftr a 2 < 64)%N.
Proof.
  intros H. apply N.ltb_lt.
  apply (forallb_below (fun a => N.ltb (N.shiftr a 2) 64) 256); [vm_compute; reflexivity|exact H].
Qed.

Lemma sextet1_below a3 b4 :
  (a3 < 4)%N -> (b4 < 16)%N -> (N.lor (N.shiftl a3 4) b4 < 64)%N.
Proof.
  intros Ha Hb. apply N.ltb_lt.
  pose proof (forallb_below
                (fun a3 => forallb (fun b4 => N.ltb (N.lor (N.shiftl a3 4) b4) 64)
                             (below 16)) 4) as Hall.
  cbv beta in Hall.
  apply (forallb_below _ 16 (Hall ltac:(vm_compute; reflexivity) a3 Ha) b4 Hb).
Qed.

Lemma sextet2_below b15 c6 :
  (b15 < 16)%N -> (c6 < 4)%N -> (N.lor (N.shiftl b15 2) c6 < 64)%N.
Proof.
  intros Hb Hc. apply N.ltb_lt.
  pose proof (forallb_below
                (fun b15 => forallb (fun c6 => N.ltb (N.lor (N.shiftl b15 2) c6) 64)
                              (below 4)) 16) as Hall.
  cbv beta in Hall.
  apply (forallb_below _ 4 (Hall ltac:(vm_compute; reflexivity) b15 Hb) c6 Hc).
Qed.

Lemma sextet3_below c : (c < 256)%N -> (N.land c 63 < 64)%N.
Proof.
  intros H. apply N.ltb_lt.
  apply (forallb_below (fun c => N.ltb (N.land c 63) 64) 256); [vm_compute; reflexivity|exact H].
Qed.

(** ** Decoding what was encoded *)

Lemma decode_EncodeToString_3 (a b c : byte) rest :
  decode (EncodeToString (a :: b :: c :: rest)) []
  = option_map (fun tl => a :: b :: c :: tl) (decode (EncodeToString rest) []).
Proof.
  pose proof (byte_below a) as Ha. pose proof (byte_below b) as Hb.
  pose proof (byte_below c) as Hc.
  cbn [EncodeToString decode].
  rewrite (base64_value_char _ (sextet0_below _ Ha)). cbn [app].
  rewrite (base64_value_char _ (sextet1_below _ _ (land3_below _ Ha) (shiftr4_below _ Hb))).
  cbn [app].
  rewrite (base64_value_char _ (sextet2_below _ _ (land15_below _ Hb) (shiftr6_below _ Hc))).
  cbn [app].
  rewrite (base64_value_char _ (sextet3_below _ Hc)).
  unfold quantum_byte0, quantum_byte1, quantum_byte2.
  rewrite (low_byte_of a), (low_byte_of b), (low_byte_of c); [reflexivity|..].
  - apply byte2_back; [apply land15_below|]; assumption.
  - apply byte1_back; [apply land3_below| |apply shiftr6_below]; assumption.
  - apply byte0_back; [|apply shiftr4_below]; assumption.
Qed.

Lemma decode_EncodeToString_1 (a : byte) :
  decode (EncodeToString [a]) [] = Some [a].
Proof.
  pose proof (byte_below a) as Ha.
  assert (H1 : (N.shiftl (N.land (Byte.to_N a) 3) 4 < 64)%N).
  { apply N.ltb_lt.
    apply (forallb_below (fun a => N.ltb (N.shiftl (N.land a 3) 4) 64) 256);
      [vm_compute; reflexivity|exact Ha]. }
  assert (H0 : N.land (N.lor (N.shiftl (N.shiftr (Byte.to_N a) 2) 2)
                         (N.shiftr (N.shiftl (N.land (Byte.to_N a) 3) 4) 4)) 255
               = Byte.to_N a).
  { apply N.eqb_eq.
    apply (forallb_below
             (fun a => N.eqb (N.land (N.lor (N.shiftl (N.shiftr a 2) 2)
                                        (N.shiftr (N.shiftl (N.land a 3) 4) 4)) 255) a)
             256); [vm_compute; reflexivity|exact Ha]. }
  cbn [EncodeToString decode].
  rewrite (base64_value_char _ (sextet0_below _ Ha)). cbn [app].
  rewrite (base64_value_char _ H1). cbn.
  unfold quantum_byte0. now rewrite (low_byte_of a).
Qed.

Lemma decode_EncodeToString_2 (a b : byte) :
  decode (EncodeToString [a; b]) [] = Some [a; b].
Proof.
  pose proof (byte_below a) as Ha. pose proof (byte_below b) as Hb.
  assert (H2 : (N.shiftl (N.land (Byte.to_N b) 15) 2 < 64)%N).
  { apply N.ltb_lt.
    apply (forallb_below (fun b => N.ltb (N.shiftl (N.land b 15) 2) 64) 256);
      [vm_compute; reflexivity|exact Hb]. }
  assert (H1 : forall a3, (a3 < 4)%N ->
               N.land (N.lor (N.shiftl (N.lor (N.shiftl a3 4) (N.shiftr (Byte.to_N b) 4)) 4)
                         (N.shiftr (N.shiftl (N.land (Byte.to_N b) 15) 2) 2)) 255
               = Byte.to_N b).
  { intros a3 Ha3. apply N.eqb_eq.
    pose proof (forallb_below
                  (fun a3 => forallb
                     (fun b => N.eqb
                        (N.land (N.lor (N.shiftl (N.lor (N.shiftl a3 4) (N.shiftr b 4)) 4)
                                   (N.shiftr (N.shiftl (N.land b 15) 2) 2)) 255) b)
                     (below 256)) 4) as Hall.
    cbv beta in Hall.
    apply (forallb_below _ 256 (Hall ltac:(vm_compute; reflexivity) a3 Ha3) _ Hb). }
  cbn [EncodeToString decode].
  rewrite (base64_value_char _ (sextet0_below _ Ha)). cbn [app].
  rewrite (base64_value_char _ (sextet1_below _ _ (land3_below _ Ha) (shiftr4_below _ Hb))).
  cbn [app].
  rewrite (base64_value_char _ H2). cbn.
  unfold quantum_byte0, quantum_byte1.
  rewrite (low_byte_of a), (low_byte_of b); [reflexivity|..].
  - apply H1, land3_below, Ha.
  - apply byte0_back; [|apply shiftr4_below]; assumption.
Qed.

(** Induction on a list three elements at a time. *)
Lemma list_ind_3 {A} (P : list A -> Prop) :
  P [] -> (forall a, P [a]) -> (forall a b, P [a; b]) ->
  (forall a b c rest, P rest -> P (a :: b :: c :: rest)) ->
  forall l, P l.
Proof.
  intros H0 H1 H2 H3.
  assert (H : forall l, P l /\ (forall a, P (a :: l)) /\ (forall a b, P (a :: b :: l))).
  { induction l as [|x l (IH0 & IH1 & IH2)].
    - auto.
    - split; [apply IH1|]. split; [intros a; apply IH2|]. intros a b. apply H3, IH0. }
  intros l. apply H.
Qed.

Lemma DecodeString_EncodeToString data :
  DecodeString (EncodeToString data) = Some data.
Proof.
  unfold DecodeString. induction data as [|a|a b|a b c rest IH] using list_ind_3.
  - reflexivity.
  - apply decode_EncodeToString_1.
  - apply decode_EncodeToString_2.
  - rewrite decode_EncodeToString_3, IH. reflexivity.
Qed.

(** ** The data URL *)

Lemma string_length_append s1 s2 :
  String.length (s1 ++ s2) = (String.length s1 + String.length s2)%nat.
Proof. induction s1 as [|c s1 IH]; cbn; [reflexivity|now rewrite IH]. Qed.

Lemma base64_char_not_comma n : (n < 64)%N -> Ascii.eqb "," (base64_char n) = false.
Proof.
  intros H. destruct (Ascii.eqb "," (base64_char n)) eqn:E; [|reflexivity].
  apply Ascii.eqb_eq in E. pose proof (base64_value_char n H) as Hv.
  rewrite <- E in Hv. discriminate.
Qed.

Lemma EncodeToString_no_comma data : occurs "," (EncodeToString data) = false.
Proof.
  induction data as [|a|a b|a b c rest IH] using list_ind_3;
    [reflexivity|..];
    pose proof (byte_below a) as Ha;
    try pose proof (byte_below b) as Hb;
    try pose proof (byte_below c) as Hc;
    cbn [EncodeToString occurs].
  - rewrite (base64_char_not_comma _ (sextet0_below _ Ha)).
    replace (N.shiftl (N.land (Byte.to_N a) 3) 4)
      with (N.lor (N.shiftl (N.land (Byte.to_N a) 3) 4) 0) by apply N.lor_0_r.
    rewrite (base64_char_not_comma _ (sextet1_below _ 0 (land3_below _ Ha) eq_refl)).
    reflexivity.
  - rewrite (base64_char_not_comma _ (sextet0_below _ Ha)).
    rewrite (base64_char_not_comma _
               (sextet1_below _ _ (land3_below _ Ha) (shiftr4_below _ Hb))).
    replace (N.shiftl (N.land (Byte.to_N b) 15) 2)
      with (N.lor (N.shiftl (N.land (Byte.to_N b) 15) 2) 0) by apply N.lor_0_r.
    rewrite (base64_char_not_comma _ (sextet2_below _ 0 (land15_below _ Hb) eq_refl)).
    reflexivity.
  - rewrite (base64_char_not_comma _ (sextet0_below _ Ha)).
    rewrite (base64_char_not_comma _
               (sextet1_below _ _ (land3_below _ Ha) (shiftr4_below _ Hb))).
    rewrite (base64_char_not_comma _
               (sextet2_below _ _ (land15_below _ Hb) (shiftr6_below _ Hc))).
    rewrite (base64_char_not_comma _ (sextet3_below _ Hc)).
    exact IH.
Qed.

Lemma EncodeToString_length data :
  String.length (EncodeToString data) = (4 * ((length data + 2) / 3))%nat.
Proof.
  induction data as [|a|a b|a b c rest IH] using list_ind_3; try reflexivity.
  cbn [EncodeToString String.length length]. rewrite IH.
  replace (S (S (S (length rest))) + 2)%nat with (1 * 3 + (length rest + 2))%nat by lia.
  rewrite Nat.div_add_l by lia. lia.
Qed.

Lemma Split_without_separator s sep : occurs sep s = false -> Split s sep = [s].
Proof.
  induction s as [|c s IH]; cbn; [reflexivity|].
  intros H. apply orb_false_elim in H. destruct H as [Hc Hs].
  rewrite Ascii.eqb_sym, Hc, (IH Hs). reflexivity.
Qed.

Lemma Split_dataURL data :
  Split (dataURL data) "," = ["data:image/png;base64"; EncodeToString data].
Proof.
  unfold dataURL. cbn.
  now rewrite (Split_without_separator _ _ (EncodeToString_no_comma data)).
Qed.

(** X1.  What [dataURL] puts after the comma decodes back, with the
    standard decoding, to the bytes it was given: splitting the URL at the
    comma gives the media type and the payload, the payload decodes to the
    data, and two different byte sequences never give the same URL. *)
Theorem dataURL_decodes_back :
  forall data : list byte,
    Split (dataURL data) "," = ["data:image/png;base64"; EncodeToString data]
    /\ DecodeString (EncodeToString data) = Some data
    /\ (forall data', dataURL data = dataURL data' -> data = data').
Proof.
  intros data. split; [apply Split_dataURL|].
  split; [apply DecodeString_EncodeToString|].
  intros data' H. unfold dataURL in H. cbn in H.
  repeat match type of H with String _ _ = String _ _ => injection H as H end.
  pose proof (DecodeString_EncodeToString data) as Hd.
  rewrite H, DecodeString_EncodeToString in Hd. congruence.
Qed.

(** X2.  The URL of [n] bytes has 22 bytes of prefix and four characters
    for every group of three bytes, the last group padded; the payload holds
    no comma. *)
Theorem dataURL_length :
  forall data : list byte,
    String.length (dataURL data) = (22 + 4 * ((length data + 2) / 3))%nat
    /\ occurs "," (EncodeToString data) = false.
Proof.
  intros data. split; [|apply EncodeToString_no_comma].
  unfold dataURL. now rewrite string_length_append, EncodeToString_length.
Qed.

(** ** The observation of the dispatcher *)


(** ** The log of an observation *)

Lemma debugComputerOutput_of_observation :
  forall (now : string) (write : option error) (screenshot : list byte) (url : string),
    let filename := "screenshots/" ++ now ++ ".png" in
    debugComputerOutput now write (observation screenshot url)
    = (Ok tt,
       ([MkdirAll "screenshots" 493; WriteFile filename screenshot 420]
        ++ match write with
           | Some err => [Stdout ("❌ Error saving screenshot: " ++ err ++ newline)%string]
           | None =>
               [Stdout ("📷 Screenshot saved: " ++ filename ++ newline)%string]
               ++ (if url =? "" then []
                   else [Stdout ("🌐 Current URL: " ++ url ++ newline)%string])
               ++ [Stdout ("📊 Output type: input_image" ++ newline)%string]
           end)%list).
Proof.
  intros now write screenshot url filename. subst filename.
  unfold debugComputerOutput, observation.
  cbn [ComputerOutput_ImageURL ComputerOutput_CurrentURL ComputerOutput_Type].
  replace (dataURL screenshot =? "") with false by reflexivity.
  rewrite Split_dataURL. cbn [nth_error].
  rewrite DecodeString_EncodeToString.
  destruct write as [err|]; [reflexivity|].
  cbn. destruct (url =? ""); reflexivity.
Qed.

(** X3.  For an observation built by the dispatcher, [debugComputerOutput]
    neither panics nor reports a decoding error: it creates the directory
    and writes exactly the bytes of the screenshot to
    [screenshots/<time>.png], then prints the line of the outcome of the
    write and, when the file was written, the location (if not empty) and the
    type. *)
Theorem debugComputerOutput_saves_the_screenshot :
  forall (now : string) (write : option error) (screenshot : list byte) (url : string),
    let filename := "screenshots/" ++ now ++ ".png" in
    debugComputerOutput now write (observation screenshot url)
    = (Ok tt,
       ([MkdirAll "screenshots" 493; WriteFile filename screenshot 420]
        ++ match write with
           | Some err => [Stdout ("❌ Error saving screenshot: " ++ err ++ newline)%string]
           | None =>
               [Stdout ("📷 Screenshot saved: " ++ filename ++ newline)%string]
               ++ (if url =? "" then []
                   else [Stdout ("🌐 Current URL: " ++ url ++ newline)%string])
               ++ [Stdout ("📊 Output type: input_image" ++ newline)%string]
           end)%list).
Proof. exact debugComputerOutput_of_observation. Qed.

(** X4.  With an empty image URL [debugComputerOutput] only prints that no
    screenshot is available.  With an image URL that is not empty and holds
    no comma it panics on the index 1 of the split, before touching the
    disk. *)
Theorem debugComputerOutput_without_comma_panics :
  forall (now : string) (write : option error) (out : ComputerOutput),
    (ComputerOutput_ImageURL out = "" ->
     debugComputerOutput now write out
     = (Ok tt, [Stdout ("📷 No screenshot available" ++ newline)]))
    /\ (ComputerOutput_ImageURL out <> "" ->
        occurs "," (ComputerOutput_ImageURL out) = false ->
        debugComputerOutput now write out = (Panic index_1_of_1, [])).
Proof.
  intros now write out. unfold debugComputerOutput. split.
  - intros ->. reflexivity.
  - intros Hne Hno.
    rewrite (eqb_empty_false _ Hne), (Split_without_separator _ _ Hno).
    reflexivity.
Qed.

(** ** The log of a request *)

Lemma substring_length n : forall s,
  (n <= String.length s)%nat -> String.length (substring 0 n s) = n.
Proof.
  induction n as [|n IH]; intros [|c s] H; cbn in *; try reflexivity; try lia.
  rewrite IH by lia. reflexivity.
Qed.

(** X5.  [debugInput] prints at most 100 bytes of the goal: a goal of at
    most 100 bytes is printed whole, a longer one is cut to its first 97
    bytes followed by three dots. *)
Theorem debugInput_cuts_the_goal :
  forall instruction : string,
    instruction <> "" ->
    exists shown,
      debugInput [user_message instruction]
      = [newline ++ "📥 ----- INPUT MESSAGE DETAILS -----" ++ newline;
         "📌 Message #1:" ++ newline;
         "  🔹 Role: user" ++ newline;
         "  🔹 Content: " ++ shown ++ newline;
         "  ------------------------------" ++ newline;
         "📥 ----- END OF INPUT DETAILS -----" ++ newline ++ newline]
      /\ (String.length shown <= 100)%nat
      /\ ((String.length instruction <= 100)%nat -> shown = instruction)
      /\ ((100 < String.length instruction)%nat ->
          shown = substring 0 97 instruction ++ "..."
          /\ String.length shown = 100%nat).
Proof.
  intros instruction Hne.
  unfold debugInput. cbn [debugInput_messages]. unfold debugInput_message, user_message.
  cbn [Input_Role Input_Type Input_CallID Input_Content Input_Output].
  rewrite (eqb_empty_false _ Hne).
  destruct (100 <? String.length instruction)%nat eqn:Hlong.
  - apply Nat.ltb_lt in Hlong.
    assert (Hlen : String.length (substring 0 97 instruction ++ "...") = 100%nat).
    { rewrite string_length_append, substring_length by lia. reflexivity. }
    exists (substring 0 97 instruction ++ "...").
    split; [reflexivity|]. split; [lia|]. split; [lia|]. auto.
  - apply Nat.ltb_ge in Hlong.
    exists instruction. split; [reflexivity|]. split; [exact Hlong|].
    split; [reflexivity|]. lia.
Qed.

(** ** What a run can leave in its trace *)

Section Alphabet.
Variable P : Event -> Prop.
Variable instruction : string.
Hypothesis P_action : forall a, Forall P (action_events a).
Hypothesis P_screenshot : P EvScreenshot.
Hypothesis P_info : P EvMustInfo.
Hypothesis P_pending : forall o, Forall P (pending_line o).
Hypothesis P_observation :
  forall screenshot url, P (EvDebugComputerOutput (observation screenshot url)).
Hypothesis P_final :
  forall finalOutput,
    finalOutput <> "" -> P (EvPrintln ("Final output: " ++ finalOutput)).
Hypothesis P_asked : forall v, Forall P (asked instruction v).
Hypothesis P_response : forall r, P (EvDebugResponse r).
Hypothesis P_pace : P (EvSleep 1000).

Variable w : World.
Variable b : Browser.
Variable p : string.
Hypothesis page_is_open : page b = Some p.

Lemma dispatched_alphabet o a screenshot url :
  Forall P (dispatched o a (observation screenshot url)).
Proof.
  unfold dispatched. apply Forall_app; split; [apply P_action|].
  constructor; [exact P_screenshot|]. constructor; [exact P_info|].
  apply Forall_app; split; [apply P_pending|].
  constructor; [apply P_observation|constructor].
Qed.

Lemma scan_alphabet output : forall v tr,
  exists evs, snd (scan w b output v tr) = (tr ++ evs)%list /\ Forall P evs.
Proof.
  induction output as [|o rest IH]; intros v tr.
  - exists []. cbn. now rewrite app_nil_r.
  - rewrite scan_cons, (dispatch_spec w b p page_is_open).
    assert (Hnext : forall v1 evs1,
               Forall P evs1 ->
               exists evs,
                 snd (if is_answer o then
                        match OutputItem_Content o with
                        | Some (c :: _) => (Ok (v1, Sprint c), (tr ++ evs1)%list)
                        | _ => (Panic index_out_of_range, (tr ++ evs1)%list)
                        end
                      else scan w b rest v1 (tr ++ evs1)%list)
                 = (tr ++ evs)%list /\ Forall P evs).
    { intros v1 evs1 H1. destruct (is_answer o).
      - exists evs1. split; [|exact H1].
        now destruct (OutputItem_Content o) as [[|c cs]|].
      - destruct (IH v1 (tr ++ evs1)%list) as (evs2 & Hs2 & H2).
        exists (evs1 ++ evs2)%list. rewrite app_assoc. split; [exact Hs2|].
        now apply Forall_app. }
    destruct (OutputItem_Action o) as [a|].
    + destruct (rod_Screenshot w _) as [err|png].
      { eexists. split; [reflexivity|].
        apply Forall_app; split; [apply P_action|repeat constructor; auto]. }
      cbv zeta. set (out := observation png _). fold (dispatched o a out).
      apply Hnext, dispatched_alphabet.
    + specialize (Hnext v [] (Forall_nil _)). now rewrite app_nil_r in Hnext.
Qed.

Lemma turn_alphabet v tr :
  exists evs, snd (turn w b instruction v tr) = (tr ++ evs)%list /\ Forall P evs.
Proof.
  rewrite turn_unfold. pose proof (P_asked v) as Hasked.
  destruct (OPENAI_API_KEY w =? "").
  { eexists. split; [reflexivity|]. unfold asked in Hasked.
    inversion Hasked; subst. repeat constructor; assumption. }
  destruct (http_Do w _) as [err|r].
  { eexists. split; [reflexivity|exact Hasked]. }
  match goal with
  | |- context [scan w b ?o ?v0 ?t] =>
      destruct (scan_alphabet o v0 t) as (evs & -> & Hevs)
  end.
  exists (asked instruction v ++ [EvDebugResponse r] ++ evs)%list.
  split; [now rewrite <- !app_assoc|].
  apply Forall_app; split; [exact Hasked|]. constructor; [apply P_response|exact Hevs].
Qed.

Lemma turns_alphabet n : forall v tr,
  exists evs, snd (turns w b instruction n v tr) = (tr ++ evs)%list /\ Forall P evs.
Proof.
  induction n as [|n IH]; intros v tr.
  - exists []. cbn. now rewrite app_nil_r.
  - rewrite turns_S. destruct (ctx_Done w tr).
    { exists []. cbn. now rewrite app_nil_r. }
    destruct (turn_alphabet v tr) as (evs & Hs & Hevs).
    destruct (turn w b instruction v tr) as [[[v' fo]|e|msg] tr'];
      cbn [snd] in Hs; subst tr'; try (exists evs; split; [reflexivity|exact Hevs]).
    destruct (fo =? "") eqn:Hfo; cbn [negb].
    + destruct (IH v' ((tr ++ evs) ++ [EvSleep 1000])%list) as (evs' & -> & Hevs').
      exists (evs ++ [EvSleep 1000] ++ evs')%list.
      split; [now rewrite <- !app_assoc|].
      apply Forall_app; split; [exact Hevs|]. constructor; [exact P_pace|exact Hevs'].
    + exists (evs ++ [EvPrintln ("Final output: " ++ fo)])%list.
      cbn [snd]. rewrite app_assoc. split; [reflexivity|].
      apply Forall_app; split; [exact Hevs|].
      constructor; [apply P_final; now apply String.eqb_neq|constructor].
Qed.
End Alphabet.

(** [BrowserUse] from any starting trace. *)
Lemma BrowserUse_unfold_from w url instruction maxTurns tr :
  BrowserUse w url instruction maxTurns tr =
  match rod_Page w (tr ++ [EvMustConnect; EvPage url])%list with
  | Some err =>
      (Err ("error opening browser: error opening page: " ++ err),
       (tr ++ [EvMustConnect; EvPage url])%list)
  | None =>
      let run := turns w (open_browser url) instruction (Z.to_nat maxTurns)
                   initial_vars (tr ++ opened url)%list in
      (returned (fst run), (snd run ++ [EvMustClose])%list)
  end.
Proof.
  unfold BrowserUse, NewBrowser, Open. returning.
  unfold_bind. unfold wrap, emit, history, M_ret.
  rewrite <- !app_assoc. cbn [app].
  destruct (rod_Page w (tr ++ [EvMustConnect; EvPage url])%list) as [err|];
    [reflexivity|].
  cbn [width height]. unfold defer, Close. returning. unfold emit.
  rewrite <- !app_assoc. cbn [app].
  fold (open_browser url). unfold opened.
  destruct (turns w (open_browser url) instruction (Z.to_nat maxTurns) initial_vars
              (tr ++ [EvMustConnect; EvPage url; EvMustSetViewport 1024 768;
                      EvMustWaitStable])%list) as [[exit|e|msg] tr'];
    reflexivity.
Qed.

Lemma BrowserUse_alphabet (P : Event -> Prop) instruction w url maxTurns tr :
  (forall a, Forall P (action_events a)) ->
  P EvScreenshot -> P EvMustInfo ->
  (forall o, Forall P (pending_line o)) ->
  (forall screenshot url, P (EvDebugComputerOutput (observation screenshot url))) ->
  (forall finalOutput,
      finalOutput <> "" -> P (EvPrintln ("Final output: " ++ finalOutput))) ->
  (forall v, Forall P (asked instruction v)) ->
  (forall r, P (EvDebugResponse r)) ->
  P (EvSleep 1000) ->
  Forall P (opened url) -> P EvMustClose ->
  exists evs,
    snd (BrowserUse w url instruction maxTurns tr) = (tr ++ evs)%list /\ Forall P evs.
Proof.
  intros Ha Hs Hi Hp Ho Hf Hq Hr Hz Hopen Hclose.
  rewrite BrowserUse_unfold_from.
  destruct (rod_Page w _) as [err|].
  { eexists. split; [reflexivity|].
    unfold opened in Hopen. inversion Hopen as [|? ? H1 H2]; subst.
    inversion H2; subst. repeat constructor; assumption. }
  cbv zeta. cbn [snd].
  destruct (turns_alphabet P instruction Ha Hs Hi Hp Ho Hf Hq Hr Hz w
              (open_browser url) url eq_refl (Z.to_nat maxTurns) initial_vars
              (tr ++ opened url)%list) as (evs & -> & Hevs).
  exists (opened url ++ evs ++ [EvMustClose])%list.
  split; [now rewrite <- !app_assoc|].
  apply Forall_app; split; [exact Hopen|].
  apply Forall_app; split; [exact Hevs|]. now constructor.
Qed.

(** ** Requests of a run *)

Lemma inside_turn_shaped instruction e : inside_turn e -> shaped instruction e.
Proof. destruct e; cbn; auto; contradiction. Qed.

Lemma asked_shaped instruction v : Forall (shaped instruction) (asked instruction v).
Proof.
  unfold asked. constructor; [exact I|]. constructor; [|constructor].
  cbn. unfold messages_of. destruct (responseID v =? "").
  - exists (responseID v), (user_message instruction). auto.
  - exists (responseID v), (call_output (callID v) (callResp v)).
    split; [reflexivity|]. split; [reflexivity|]. right. eauto.
Qed.

Lemma shaped_requests instruction evs :
  Forall (shaped instruction) evs -> Forall (request_shape instruction) (requests evs).
Proof.
  induction 1 as [|e evs He _ IH]; [constructor|].
  destruct e; cbn in *; auto.
Qed.

(** X10.  Every request of a run has the fixed model, truncation and tool
    declaration (a browser of 1024 by 768) and exactly one input item, which
    is the goal or the output of a call, and never acknowledges a safety
    check. *)
Theorem every_request_has_the_fixed_shape :
  forall (w : World) (url instruction : string) (maxTurns : Z),
    Forall (request_shape instruction)
      (requests (snd (BrowserUse w url instruction maxTurns []))).
Proof.
  intros w url instruction maxTurns.
  destruct (BrowserUse_alphabet (shaped instruction) instruction w url maxTurns [])
    as (evs & -> & Hevs).
  - intros a. eapply Forall_impl; [apply inside_turn_shaped|apply action_events_inside].
  - exact I.
  - exact I.
  - intros o. unfold pending_line. destruct (0 <? _)%Z; repeat constructor.
  - intros; exact I.
  - intros; exact I.
  - apply asked_shaped.
  - intros; exact I.
  - exact I.
  - repeat constructor.
  - exact I.
  - apply shaped_requests, Hevs.
Qed.

(** ** Driver calls of a run *)

Lemma key_events_driven key : Forall driven (key_events key).
Proof. unfold key_events. destruct (key_of (ToLower key)); repeat constructor. Qed.

Lemma action_events_driven a : Forall driven (action_events a).
Proof.
  unfold action_events.
  destruct (Action_Type a =? "screenshot"); [constructor|].
  destruct (Action_Type a =? "type"); [repeat constructor|].
  destruct (Action_Type a =? "click").
  { destruct (Action_Button a =? "right");
      repeat (apply Forall_cons || apply Forall_nil); cbn; auto. }
  destruct (Action_Type a =? "scroll"); [repeat constructor|].
  destruct (Action_Type a =? "keypress").
  { apply Forall_app; split; [|repeat constructor].
    apply Forall_flat_map, Forall_forall. intros; apply key_events_driven. }
  destruct (Action_Type a =? "wait");
    repeat (apply Forall_cons || apply Forall_nil); cbn; auto.
Qed.

(** X11.  Whatever the service asks for, a run never calls [MustClick]
    (the double click), presses and releases only the left and the right
    button, sets no viewport but 1024 by 768 and sleeps only for one or
    three seconds. *)
Theorem BrowserUse_never_double_clicks :
  forall (w : World) (url instruction : string) (maxTurns : Z),
    Forall driven (snd (BrowserUse w url instruction maxTurns [])).
Proof.
  intros w url instruction maxTurns.
  destruct (BrowserUse_alphabet driven instruction w url maxTurns [])
    as (evs & -> & Hevs).
  - apply action_events_driven.
  - exact I.
  - exact I.
  - intros o. unfold pending_line. destruct (0 <? _)%Z; repeat constructor.
  - intros; exact I.
  - intros; exact I.
  - intros v. repeat constructor.
  - intros; exact I.
  - cbn. auto.
  - repeat (apply Forall_cons || apply Forall_nil); cbn; auto.
  - exact I.
  - exact Hevs.
Qed.

(** ** Outcomes of a run *)

Lemma BrowserUse_outcomes_from w url instruction maxTurns tr :
  match fst (BrowserUse w url instruction maxTurns tr) with
  | Ok _ => True
  | Err e => BrowserUse_error e
  | Panic msg => msg = index_out_of_range
  end.
Proof.
  rewrite BrowserUse_unfold_from.
  destruct (rod_Page w _) as [err|]; [left; eauto|].
  cbv zeta. cbn [fst].
  destruct (turns_spec w (open_browser url) url eq_refl instruction
              (Z.to_nat maxTurns) initial_vars (tr ++ opened url)%list)
    as (evs & _ & _ & _ & Ho & _).
  destruct (fst (turns w _ _ _ _ _)) as [exit|e|msg]; cbn in *; auto.
  destruct Ho as [->|[Hf|Hf]]; unfold BrowserUse_error; auto.
Qed.

(** X17.  Whatever the driver does, [BrowserUse] returns [nil] or one of
    four errors (the page could not be opened, the context is done, the
    exchange failed, a capture failed), or panics: with the index out of
    range, or with the panic of a helper of the driver.  It ends in no other
    way, and each of these endings occurs. *)
Theorem BrowserUse_outcomes :
  (forall (d : Driver) (w : World) (url instruction : string) (maxTurns : Z),
      match fst (BrowserUse (d:=d) w url instruction maxTurns []) with
      | Ok _ => True
      | Err e => BrowserUse_error e
      | Panic msg => msg = index_out_of_range \/ driver_panic (d:=d) msg
      end)
  /\ fst (BrowserUse (answering say_hello) "https://start/" "say hello" 16 []) = Ok tt
  /\ fst (BrowserUse (unreachable say_hello) "https://nowhere.invalid/" "say hello" 16 [])
     = Err "error opening browser: error opening page: net::ERR_NAME_NOT_RESOLVED"
  /\ fst (BrowserUse (with_ctx (answering only_wait) (done_after 1))
            "https://start/" "goal" 16 [])
     = Err "context canceled"
  /\ fst (BrowserUse (failing_after 0 say_hello) "https://start/" "say hello" 16 [])
     = Err "error calling OpenAI API: failed to send request: connection reset"
  /\ fst (BrowserUse (blind only_wait) "https://start/" "goal" 16 [])
     = Err (capture_error "target closed")
  /\ fst (BrowserUse (answering empty_content) "https://start/" "goal" 16 [])
     = Panic index_out_of_range
  /\ fst (BrowserUse (d:=losing_the_page) (answering only_wait) "https://start/"
            "goal" 16 [])
     = Panic target_closed.
Proof.
  split; [|repeat split; reflexivity].
  intros d w url instruction maxTurns.
  destruct (BrowserUse_refines (d:=d) w url instruction maxTurns [])
    as [->|(msg & tr' & -> & Hp)].
  - pose proof (BrowserUse_outcomes_from w url instruction maxTurns []) as Hout.
    destruct (fst (BrowserUse w url instruction maxTurns [])); auto.
  - cbn. now right.
Qed.

(** X7.  Whatever the world answers, a run posts at most [maxTurns]
    requests (none for a budget below one). *)
Theorem BrowserUse_request_budget :
  forall (w : World) (url instruction : string) (maxTurns : Z),
    (posts (snd (BrowserUse w url instruction maxTurns [])) <= Z.to_nat maxTurns)%nat.
Proof.
  intros w url instruction maxTurns. rewrite BrowserUse_unfold.
  destruct (rod_Page w _) as [err|]; [cbn; lia|].
  cbv zeta. cbn [snd].
  destruct (turns_spec w (open_browser url) url eq_refl instruction
              (Z.to_nat maxTurns) initial_vars (opened url))
    as (evs & -> & _ & Hp & _).
  rewrite !posts_app. cbn. lia.
Qed.


(** ** The chain of response identifiers *)

Lemma responses_app l1 l2 : responses (l1 ++ l2) = (responses l1 ++ responses l2)%list.
Proof. apply flat_map_app. Qed.

Lemma posts_requests tr : posts tr = length (requests tr).
Proof.
  induction tr as [|e tr IH]; [reflexivity|].
  change (e :: tr) with ([e] ++ tr)%list.
  rewrite posts_app, requests_app, length_app, IH. now destruct e.
Qed.

Lemma inside_turn_silent evs :
  Forall inside_turn evs -> requests evs = [] /\ responses evs = [].
Proof.
  induction 1 as [|e evs He _ [IHq IHr]]; [split; reflexivity|].
  change (e :: evs) with ([e] ++ evs)%list.
  rewrite requests_app, responses_app, IHq, IHr.
  destruct e; try contradiction; split; reflexivity.
Qed.

Section Chain.
Variable w : World.
Variable b : Browser.
Variable p : string.
Hypothesis page_is_open : page b = Some p.
Variable instruction : string.

Lemma turns_chain n : forall v tr,
  exists evs,
    snd (turns w b instruction n v tr) = (tr ++ evs)%list
    /\ map Request_PreviousResponseID (requests evs)
       = firstn (length (requests evs))
           (responseID v :: map Response_ID (responses evs)).
Proof.
  induction n as [|n IH]; intros v tr.
  - exists []. cbn. now rewrite app_nil_r.
  - rewrite turns_S. destruct (ctx_Done w tr).
    { exists []. cbn. now rewrite app_nil_r. }
    rewrite turn_unfold.
    destruct (OPENAI_API_KEY w =? "").
    { eexists. split; reflexivity. }
    destruct (http_Do w _) as [err|r].
    { eexists. split; reflexivity. }
    match goal with
    | |- context [scan w b ?o ?v0 ?t] =>
        destruct (scan_spec w b p page_is_open o v0 t) as (evs & Hs & Hin & Hpost);
        destruct (scan w b o v0 t) as [[[v' fo]|e|msg] tr']
    end; cbn [fst snd] in Hs, Hpost; subst tr';
      destruct (inside_turn_silent evs Hin) as [Hq Hr].
    + destruct (negb (fo =? "")).
      * exists (asked instruction v ++ [EvDebugResponse r] ++ evs
                  ++ [EvPrintln ("Final output: " ++ fo)])%list.
        cbn [snd]. split; [now rewrite <- !app_assoc|].
        rewrite !requests_app, !responses_app, Hq, Hr. reflexivity.
      * destruct Hpost as (_ & _ & Hid & _). cbn [responseID] in Hid.
        match goal with
        | |- context [turns w b instruction n v' ?t] =>
            destruct (IH v' t) as (evs' & Hs' & Hchain)
        end.
        exists (asked instruction v ++ [EvDebugResponse r] ++ evs
                  ++ [EvSleep 1000] ++ evs')%list.
        split; [rewrite Hs'; now rewrite <- !app_assoc|].
        rewrite !requests_app, !responses_app, Hq, Hr. cbn.
        rewrite Hchain, Hid. reflexivity.
    + exists (asked instruction v ++ [EvDebugResponse r] ++ evs)%list.
      cbn [snd]. split; [now rewrite <- !app_assoc|].
      rewrite !requests_app, !responses_app, Hq, Hr. reflexivity.
    + exists (asked instruction v ++ [EvDebugResponse r] ++ evs)%list.
      cbn [snd]. split; [now rewrite <- !app_assoc|].
      rewrite !requests_app, !responses_app, Hq, Hr. reflexivity.
Qed.
End Chain.

(** X9.  The first request of a run carries no previous response
    identifier, and every later one carries the identifier of the response
    received just before it. *)
Theorem each_request_names_the_previous_response :
  forall (w : World) (url instruction : string) (maxTurns : Z),
    let tr := snd (BrowserUse w url instruction maxTurns []) in
    map Request_PreviousResponseID (requests tr)
    = firstn (posts tr) ("" :: map Response_ID (responses tr)).
Proof.
  intros w url instruction maxTurns. cbv zeta.
  rewrite posts_requests, BrowserUse_unfold.
  destruct (rod_Page w _) as [err|]; [reflexivity|].
  cbv zeta. cbn [snd].
  destruct (turns_chain w (open_browser url) url eq_refl instruction
              (Z.to_nat maxTurns) initial_vars (opened url)) as (evs & -> & Hchain).
  rewrite !requests_app, !responses_app. cbn. rewrite !app_nil_r. exact Hchain.
Qed.

(** ** Edges of the loop *)

Lemma turns_without_key w b instruction n v tr :
  OPENAI_API_KEY w = "" ->
  posts (snd (turns w b instruction n v tr)) = posts tr.
Proof.
  intros Hkey. destruct n as [|n]; [reflexivity|].
  rewrite turns_S. destruct (ctx_Done w tr); [reflexivity|].
  rewrite turn_unfold, Hkey. cbn [String.eqb snd].
  rewrite posts_app. cbn. lia.
Qed.

(** X6.  Without the key no request is ever posted, whatever the budget.
    With a budget of at least one turn the browser is nevertheless launched
    and the page opened before the first turn fails on the missing key, and
    the browser is closed. *)
Theorem BrowserUse_without_key_makes_no_request :
  forall (w : World) (url instruction : string) (maxTurns : Z),
    OPENAI_API_KEY w = "" ->
    posts (snd (BrowserUse w url instruction maxTurns [])) = 0%nat
    /\ (0 < maxTurns ->
        rod_Page w [EvMustConnect; EvPage url] = None ->
        ctx_Done w (opened url) = false ->
        BrowserUse w url instruction maxTurns []
        = (Err "error calling OpenAI API: OPENAI_API_KEY environment variable is not set",
           (opened url ++ [EvDebugInput [user_message instruction]; EvMustClose])%list)).
Proof.
  intros w url instruction maxTurns Hkey. split.
  - rewrite BrowserUse_unfold. destruct (rod_Page w _) as [err|]; [reflexivity|].
    cbv zeta. cbn [snd]. rewrite posts_app, turns_without_key by exact Hkey.
    reflexivity.
  - intros Hpos Hopen Hctx. rewrite BrowserUse_unfold, Hopen. cbv zeta.
    destruct (Z.to_nat maxTurns) as [|n] eqn:Hn; [lia|].
    rewrite turns_S, Hctx, turn_unfold, Hkey. reflexivity.
Qed.

(** X14.  With a budget of zero or less, [BrowserUse] launches the
    browser, opens the page, closes the browser and returns [nil] without a
    single turn. *)
Theorem BrowserUse_without_budget :
  forall (w : World) (url instruction : string) (maxTurns : Z),
    maxTurns <= 0 ->
    rod_Page w [EvMustConnect; EvPage url] = None ->
    BrowserUse w url instruction maxTurns []
    = (Ok tt, (opened url ++ [EvMustClose])%list).
Proof.
  intros w url instruction maxTurns Hle Hopen.
  rewrite BrowserUse_unfold, Hopen. cbv zeta.
  replace (Z.to_nat maxTurns) with 0%nat by lia. reflexivity.
Qed.

Lemma turns_after_complete w b instruction j : forall n v tr v_j tr_j,
  never_cancelled w ->
  complete_turns w b instruction j v tr = Some (v_j, tr_j) ->
  turns w b instruction (j + n) v tr = turns w b instruction n v_j tr_j.
Proof.
  induction j as [|j IH]; intros n v tr v_j tr_j Hctx Hcomplete.
  - cbn in Hcomplete. now injection Hcomplete as -> ->.
  - cbn [complete_turns] in Hcomplete. cbn [Nat.add]. rewrite turns_S, Hctx.
    destruct (turn w b instruction v tr) as [[[v' fo]|e|msg] tr']; try discriminate.
    destruct (fo =? ""); [|discriminate]. cbn [negb].
    now apply IH.
Qed.

(** X15.  When the exchange with the service fails on some turn, after any
    number of whole turns, the loop returns at once the error that wraps the
    cause, whatever the budget left: the failed request is the last entry of
    the trace and is not tried again. *)
Theorem failed_exchange_ends_the_run :
  forall (w : World) (b : Browser) (instruction : string) (j n : nat)
         (v v_j : Vars) (tr tr_j : Trace) (err : error),
    never_cancelled w ->
    key_is_set w ->
    complete_turns w b instruction j v tr = Some (v_j, tr_j) ->
    http_Do w (tr_j ++ asked instruction v_j)%list = inl err ->
    turns w b instruction (j + S n) v tr
    = (Err ("error calling OpenAI API: " ++ err), (tr_j ++ asked instruction v_j)%list).
Proof.
  intros w b instruction j n v v_j tr tr_j err Hctx Hkey Hcomplete Hfail.
  rewrite (turns_after_complete w b instruction j (S n) v tr v_j tr_j Hctx Hcomplete).
  now rewrite turns_S, Hctx, turn_unfold, (eqb_empty_false _ Hkey), Hfail.
Qed.

(** ** The inner loop and the items after the answer *)

(** X16.  The inner loop depends only on the items up to and including the
    first assistant-content item: the items after it change neither the
    outcome nor the trace, in any world. *)
Theorem scan_ignores_items_after_the_answer :
  forall (w : World) (b : Browser) (output : list OutputItem) (v : Vars) (tr : Trace),
    scan w b output v tr = scan w b (scanned output) v tr.
Proof.
  intros w b output. induction output as [|o rest IH]; intros v tr; [reflexivity|].
  cbn [scanned]. destruct (is_answer o) eqn:Hans.
  - rewrite !scan_cons, Hans. reflexivity.
  - rewrite !scan_cons, Hans.
    destruct (dispatch w b o v tr) as [[v'|e|msg] tr']; try reflexivity. apply IH.
Qed.

(** ** More of browser.go *)

(** X12.  A click action whose button is anything but [right] (for
    instance [wheel], [back] or the empty string) is performed as a click of
    the left button. *)
Theorem click_with_another_button_is_a_left_click :
  forall (w : World) (b : Browser) (p : string) (action : Action) (tr : Trace),
    page b = Some p ->
    Action_Type action = "click" ->
    Action_Button action <> "right" ->
    perform b action tr
    = (Ok tt,
       (tr ++ [EvMustMoveTo (Action_X action) (Action_Y action);
               EvMustDown "left"; EvMustUp "left"; EvMustWaitStable])%list)
    /\ Click b (Action_X action) (Action_Y action) (Action_Button action) tr
       = Click b (Action_X action) (Action_Y action) "left" tr.
Proof.
  intros w b p action tr Hpage Hkind Hbutton.
  apply String.eqb_neq in Hbutton. split.
  - rewrite (perform_trace b p Hpage). unfold action_events.
    rewrite Hkind, Hbutton. reflexivity.
  - unfold Click. unfold_bind. rewrite (the_page_open b p Hpage), Hbutton.
    reflexivity.
Qed.

(** X13.  On a browser whose page has not been opened, the keyboard and
    mouse methods panic on the nil page before any call to the driver. *)
Theorem unopened_browser_panics :
  forall (b : Browser) (tr : Trace),
    page b = None ->
    (forall keys, Keypress b keys tr = (Panic nil_dereference, tr))
    /\ (forall x y button, Click b x y button tr = (Panic nil_dereference, tr))
    /\ (forall x y, DoubleClick b x y tr = (Panic nil_dereference, tr))
    /\ (forall x y dx dy, Scroll b x y dx dy tr = (Panic nil_dereference, tr))
    /\ (forall x y, Move b x y tr = (Panic nil_dereference, tr)).
Proof.
  intros b tr Hpage.
  assert (H : the_page b tr = (Panic nil_dereference, tr)).
  { unfold the_page. now rewrite Hpage. }
  repeat split; intros;
    unfold Keypress, Click, DoubleClick, Scroll, Move; unfold_bind; now rewrite H.
Qed.

(** ** The command *)

(** X18.  Without the key, [main] stops on [log.Fatal] before the command
    line is read and before anything is printed or launched.  Otherwise,
    whatever the driver does, it ends in one of these ways: [flag.Parse]
    leaves with the usage; [log.Fatal] on an invalid timeout or on the error
    of [BrowserUse]; the return after [Done], which it prints exactly when
    [BrowserUse] returned [nil]; or the panic of [BrowserUse].  Each of these
    endings occurs. *)
Theorem main_endings :
  (forall (d : Driver) (w : World) (parsed : Z + Flags) (timeout_error : option error),
      (OPENAI_API_KEY w = "" ->
       main (d:=d) w parsed timeout_error
       = (Fatal "OPENAI_API_KEY environment variable is not set", []))
      /\ match fst (main (d:=d) w parsed timeout_error) with
         | Returns =>
             exists flags tr,
               parsed = inr flags
               /\ BrowserUse (d:=d) w (flag_url flags) (flag_prompt flags)
                    (flag_maxturns flags)
                    [EvPrintln ("Prompt: " ++ flag_prompt flags);
                     EvPrintln ("URL   : " ++ flag_url flags)] = (Ok tt, tr)
               /\ snd (main (d:=d) w parsed timeout_error)
                  = (tr ++ [EvPrintln "Done"])%list
         | Usage status =>
             parsed = inl status /\ snd (main (d:=d) w parsed timeout_error) = []
         | Fatal message =>
             message = "OPENAI_API_KEY environment variable is not set"
             \/ (exists err,
                   timeout_error = Some err /\ message = "invalid timeout: " ++ err)
             \/ (exists e, BrowserUse_error e /\ message = "Error: " ++ e)
         | Crashes message =>
             message = index_out_of_range \/ driver_panic (d:=d) message
         end)
  /\ fst (main (answering say_hello) (inr sample_flags) None) = Returns
  /\ fst (main (answering say_hello) (inl 2) None) = Usage 2
  /\ fst (main (answering say_hello) (inr sample_flags) (Some "time: invalid duration"))
     = Fatal "invalid timeout: time: invalid duration"
  /\ fst (main (unreachable say_hello) (inr sample_flags) None)
     = Fatal "Error: error opening browser: error opening page: net::ERR_NAME_NOT_RESOLVED"
  /\ fst (main (d:=losing_the_page) (answering only_wait) (inr sample_flags) None)
     = Crashes target_closed.
Proof.
  split; [|repeat split; reflexivity].
  intros d w parsed timeout_error. unfold main. split.
  - intros ->. reflexivity.
  - destruct (OPENAI_API_KEY w =? ""); [left; reflexivity|].
    destruct parsed as [status|flags]; [split; reflexivity|].
    destruct timeout_error as [err|]; [right; left; eauto|].
    set (prints := [EvPrintln ("Prompt: " ++ flag_prompt flags);
                    EvPrintln ("URL   : " ++ flag_url flags)]).
    pose proof (BrowserUse_outcomes_from w (flag_url flags) (flag_prompt flags)
                  (flag_maxturns flags) prints) as Hout.
    destruct (BrowserUse_refines (d:=d) w (flag_url flags) (flag_prompt flags)
                (flag_maxturns flags) prints) as [E|(msg & tr' & E & Hp)].
    + rewrite <- E in Hout.
      destruct (BrowserUse (d:=d) w _ _ _ _) as [[[]|e|msg] tr] eqn:Hrun;
        cbn [fst snd] in *.
      * exists flags, tr. split; [reflexivity|]. split; [exact Hrun|reflexivity].
      * right. right. eauto.
      * now left.
    + rewrite E. cbn [fst]. now right.
Qed.

(** X19.  When the service never sends a final answer, [main] makes
    exactly as many requests as the budget allows, prints [Done] and returns
    normally. *)
Theorem main_returns_normally_on_exhaustion :
  forall (w : World) (flags : Flags),
    key_is_set w ->
    page_opens w ->
    never_cancelled w ->
    captures w ->
    (forall tr, exists r,
        http_Do w tr = inr r
        /\ forallb (fun o => negb (is_answer o)) (Response_Output r) = true) ->
    exists evs,
      main w (inr flags) None
      = (Returns,
         ([EvPrintln ("Prompt: " ++ flag_prompt flags);
           EvPrintln ("URL   : " ++ flag_url flags)]
          ++ opened (flag_url flags) ++ evs ++ [EvMustClose; EvPrintln "Done"])%list)
      /\ posts evs = Z.to_nat (flag_maxturns flags).
Proof.
  intros w flags Hkey Hopen Hctx Hcap Hservice.
  unfold main. rewrite (eqb_empty_false _ Hkey), BrowserUse_unfold_from, Hopen.
  cbv zeta.
  destruct (turns_exhaust w (open_browser (flag_url flags)) (flag_url flags) eq_refl
              (flag_prompt flags) Hkey Hctx Hcap Hservice
              (Z.to_nat (flag_maxturns flags)) initial_vars
              ([EvPrintln ("Prompt: " ++ flag_prompt flags);
                EvPrintln ("URL   : " ++ flag_url flags)]
                 ++ opened (flag_url flags))%list)
    as (evs & Hturns & Hp & _).
  rewrite Hturns. cbn [fst snd returned].
  exists evs. split; [|exact Hp].
  rewrite <- !app_assoc. reflexivity.
Qed.

(** ** The observations of a run *)

Lemma genuine_observations evs :
  Forall genuine evs ->
  Forall (fun out => exists screenshot url, out = observation screenshot url)
    (observations evs).
Proof.
  induction 1 as [|e evs He _ IH]; [constructor|].
  destruct e; cbn in *; auto.
Qed.

Lemma key_events_genuine key : Forall genuine (key_events key).
Proof. unfold key_events. destruct (key_of (ToLower key)); repeat constructor. Qed.

Lemma action_events_genuine a : Forall genuine (action_events a).
Proof.
  unfold action_events.
  repeat match goal with
         | |- context [if ?c then _ else _] => destruct c
         end; repeat constructor.
  all: apply Forall_app; split; [|repeat constructor].
  all: apply Forall_flat_map, Forall_forall; intros; apply key_events_genuine.
Qed.

(** X20.  Every observation that a run hands to [debugComputerOutput] was
    built by the dispatcher, so that logging it succeeds and writes the bytes
    of its screenshot to the file. *)
Theorem logged_observations_are_saved :
  forall (w : World) (url instruction : string) (maxTurns : Z)
         (now : string) (write : option error),
    Forall
      (fun out =>
         exists screenshot location,
           out = observation screenshot location
           /\ fst (debugComputerOutput now write out) = Ok tt
           /\ In (WriteFile ("screenshots/" ++ now ++ ".png") screenshot 420)
                (snd (debugComputerOutput now write out)))
      (observations (snd (BrowserUse w url instruction maxTurns []))).
Proof.
  intros w url instruction maxTurns now write.
  destruct (BrowserUse_alphabet genuine instruction w url maxTurns [])
    as (evs & -> & Hevs).
  - apply action_events_genuine.
  - exact I.
  - exact I.
  - intros o. unfold pending_line. destruct (0 <? _)%Z; repeat constructor.
  - intros screenshot location. cbn. eauto.
  - intros; exact I.
  - intros v. repeat constructor.
  - intros; exact I.
  - exact I.
  - repeat constructor.
  - exact I.
  - eapply Forall_impl; [|apply genuine_observations, Hevs].
    intros out (screenshot & location & ->).
    exists screenshot, location. split; [reflexivity|].
    pose proof (debugComputerOutput_of_observation now write screenshot location)
      as Hsave.
    cbv zeta in Hsave. rewrite Hsave. split; [reflexivity|]. cbn. auto.
Qed.

(** ** The further statements at sample inputs *)



Lemma debugComputerOutput_sample :
  ComputerOutput_ImageURL
    {| ComputerOutput_Type := "input_image";
       ComputerOutput_ImageURL := "iVBORw0KGgo=";
       ComputerOutput_CurrentURL := "" |} <> ""
  /\ debugComputerOutput "20250311120000" None
       {| ComputerOutput_Type := "input_image";
          ComputerOutput_ImageURL := "iVBORw0KGgo=";
          ComputerOutput_CurrentURL := "" |}
     = (Panic index_1_of_1, []).
Proof.
  split; [discriminate|].
  apply (proj2 (debugComputerOutput_without_comma_panics "20250311120000" None
                  {| ComputerOutput_Type := "input_image";
                     ComputerOutput_ImageURL := "iVBORw0KGgo=";
                     ComputerOutput_CurrentURL := "" |})).
  - discriminate.
  - reflexivity.
Defined.

Lemma debugInput_sample :
  "say hello" <> ""
  /\ exists shown,
       debugInput [user_message "say hello"]
       = [newline ++ "📥 ----- INPUT MESSAGE DETAILS -----" ++ newline;
          "📌 Message #1:" ++ newline;
          "  🔹 Role: user" ++ newline;
          "  🔹 Content: " ++ shown ++ newline;
          "  ------------------------------" ++ newline;
          "📥 ----- END OF INPUT DETAILS -----" ++ newline ++ newline]
       /\ (String.length shown <= 100)%nat
       /\ ((String.length "say hello" <= 100)%nat -> shown = "say hello")
       /\ ((100 < String.length "say hello")%nat ->
           shown = substring 0 97 "say hello" ++ "..."
           /\ String.length shown = 100%nat).
Proof.
  assert (H : "say hello" <> "") by discriminate.
  split; [exact H|]. exact (debugInput_cuts_the_goal "say hello" H).
Defined.

Lemma keyless_sample :
  OPENAI_API_KEY (keyless say_hello) = ""
  /\ posts (snd (BrowserUse (keyless say_hello) "https://start/" "say hello" 16 []))
     = 0%nat
  /\ BrowserUse (keyless say_hello) "https://start/" "say hello" 16 []
     = (Err "error calling OpenAI API: OPENAI_API_KEY environment variable is not set",
        (opened "https://start/"
           ++ [EvDebugInput [user_message "say hello"]; EvMustClose])%list).
Proof.
  split; [reflexivity|].
  destruct (BrowserUse_without_key_makes_no_request
              (keyless say_hello) "https://start/" "say hello" 16 eq_refl)
    as [Hposts Hrun].
  split; [exact Hposts|]. apply Hrun; reflexivity.
Defined.


Lemma wheel_click_sample :
  page (open_browser "https://start/") = Some "https://start/"
  /\ Action_Button wheel_click <> "right"
  /\ perform (open_browser "https://start/") wheel_click []
     = (Ok tt, [EvMustMoveTo 10 20; EvMustDown "left"; EvMustUp "left"; EvMustWaitStable]).
Proof.
  split; [reflexivity|]. split; [discriminate|].
  apply (proj1 (click_with_another_button_is_a_left_click
                  (answering say_hello) (open_browser "https://start/")
                  "https://start/" wheel_click [] eq_refl eq_refl
                  ltac:(discriminate))).
Defined.

Lemma unopened_sample :
  page unopened_browser = None
  /\ Keypress unopened_browser ["Enter"] [EvMustConnect]
     = (Panic nil_dereference, [EvMustConnect])
  /\ Click unopened_browser 10 20 "left" [EvMustConnect]
     = (Panic nil_dereference, [EvMustConnect]).
Proof.
  split; [reflexivity|].
  destruct (unopened_browser_panics unopened_browser [EvMustConnect] eq_refl)
    as (Hkeys & Hclick & _).
  split; [apply Hkeys|apply Hclick].
Defined.

Lemma no_budget_sample :
  -3 <= 0
  /\ BrowserUse (answering say_hello) "https://start/" "say hello" (-3) []
     = (Ok tt, (opened "https://start/" ++ [EvMustClose])%list).
Proof.
  split; [discriminate|].
  apply BrowserUse_without_budget; [discriminate|reflexivity].
Defined.

Lemma failed_exchange_sample :
  never_cancelled (failing_after 1 only_wait)
  /\ key_is_set (failing_after 1 only_wait)
  /\ fst (turns (failing_after 1 only_wait) (open_browser "https://start/") "goal"
            (1 + 3) initial_vars (opened "https://start/"))
     = Err "error calling OpenAI API: failed to send request: connection reset"
  /\ posts (snd (turns (failing_after 1 only_wait) (open_browser "https://start/")
                   "goal" (1 + 3) initial_vars (opened "https://start/")))
     = 2%nat.
Proof.
  assert (Hctx : never_cancelled (failing_after 1 only_wait)) by (intros tr; reflexivity).
  assert (Hkey : key_is_set (failing_after 1 only_wait)) by discriminate.
  split; [exact Hctx|]. split; [exact Hkey|].
  erewrite (failed_exchange_ends_the_run (failing_after 1 only_wait)
              (open_browser "https://start/") "goal" 1 2 initial_vars _
              (opened "https://start/") _ _ Hctx Hkey);
    cycle 1; [reflexivity|reflexivity|split; reflexivity].
Defined.

Lemma main_without_key_sample :
  OPENAI_API_KEY (keyless say_hello) = ""
  /\ main (d:=losing_the_page) (keyless say_hello) (inl 2)
       (Some "time: invalid duration")
     = (Fatal "OPENAI_API_KEY environment variable is not set", []).
Proof.
  split; [reflexivity|].
  apply (proj1 (proj1 main_endings losing_the_page (keyless say_hello) (inl 2)
                  (Some "time: invalid duration"))).
  reflexivity.
Defined.

Lemma main_exhaustion_sample :
  key_is_set (answering only_wait)
  /\ exists evs,
       main (answering only_wait) (inr sample_flags) None
       = (Returns,
          ([EvPrintln "Prompt: goal"; EvPrintln "URL   : https://start/"]
           ++ opened "https://start/" ++ evs ++ [EvMustClose; EvPrintln "Done"])%list)
       /\ posts evs = 2%nat.
Proof.
  assert (Hkey : key_is_set (answering only_wait)) by discriminate.
  split; [exact Hkey|].
  apply (main_returns_normally_on_exhaustion (answering only_wait) sample_flags Hkey).
  - intros tr. reflexivity.
  - intros tr. reflexivity.
  - apply answering_captures.
  - intros tr. exists only_wait. split; reflexivity.
Defined.
